(** * mux: middleware composition, groups and the request-context pool

    A shallow embedding of the Go package [mux] (the application with its
    routes and groups, and [handler.go]) and the properties of its
    specification.

    Conventions of the embedding:
    - Go pointers ([*App], [*Group], [*Context]) are indices into typed
      heaps kept in [State]; a [nil] pointer or interface is [None].
    - A Go slice is a header (pointer, length, capacity) over a backing
      array stored in the heap, so that two headers may share cells the
      way they do in Go.
    - A function that panics in Go (nil dereference, failed type
      assertion) yields [None].
    - Handlers, middleware and error handlers are Go function values; they
      act on the part of the world a request can touch ([Env]): the
      response sinks, the standard logger and an application-level event
      log.  They are non-nil and do not call back into the package.
    - Execution is sequential: [app.mutex] is taken and released inside
      each of [Use] and [addRoute] and is not represented.
    - net/http and sync.Pool are external: the matcher keeps one callback
      per key and answers no-match with [http.NotFound]; the pool is a
      free list in front of its [New].  Where a statement is about what
      the matcher of net/http answers before any lookup, the matcher is a
      parameter ([ServeHTTP_with]) and its path cleaning is modelled
      apart ([ServeMux_ServeHTTP]). *)

From stdpp Require Import gmap strings list.
From Stdlib Require Import ZArith.

Local Open Scope Z_scope.
Local Open Scope nat_scope.

(** ** Values exchanged with handlers *)

(** Go's [error] interface: [nil] or a failure carrying its message. *)
Definition error := option string.

(** The part of [*http.Request] that registration keys are built from. *)
Record Request := { Method : string; Path : string }.

(** An [http.ResponseWriter] interface value: [nil] or the handle of a sink. *)
Definition ResponseWriter := option nat.

(** What a response sink receives through the [http.ResponseWriter]
    interface. *)
Inductive SinkOp :=
| HeaderDel (key : string)
| HeaderSet (key value : string)
| WriteHeader (code : Z)
| Write (data : string).

Record Env := {
  stdlog : list string;            (* lines printed through package log *)
  sinks : gmap nat (list SinkOp);  (* calls received by each response sink *)
  events : list string             (* application-level ordered log *)
}.

Definition log_Printf (line : string) (e : Env) : Env :=
  {| stdlog := stdlog e ++ [line]; sinks := sinks e; events := events e |}.

Definition sink_send (w : nat) (ops : list SinkOp) (e : Env) : Env :=
  {| stdlog := stdlog e;
     sinks := <[w := default [] (sinks e !! w) ++ ops]> (sinks e);
     events := events e |}.

Definition emit (ev : string) (e : Env) : Env :=
  {| stdlog := stdlog e; sinks := sinks e; events := events e ++ [ev] |}.

(** ** handler.go *)

(** [type Context struct { app *App; req *http.Request; res http.ResponseWriter }] *)
Record Context := {
  ctx_app : option nat;
  ctx_req : option Request;
  ctx_res : ResponseWriter
}.

(** [new(Context)]: every field at its zero value. *)
Definition zeroContext : Context :=
  {| ctx_app := None; ctx_req := None; ctx_res := None |}.

(** [Handler.Handle(ctx *Context) error].  The argument is what the
    pointer designates when the call is made ([None] for a nil pointer). *)
Definition Handler := option Context -> Env -> error * Env.

(** [type MiddlewareFunc func(Handler) Handler] *)
Definition MiddlewareFunc := Handler -> Handler.

(** [type ErrorHandler = func(c *Context, err error) error] *)
Definition ErrorHandler := option Context -> error -> Env -> error * Env.

(** Modelled from the spec: net/http is an external collaborator; only the
    two status texts the package uses are listed. *)
Definition StatusInternalServerError : Z := 500.
Definition StatusNotFound : Z := 404.

Definition StatusText (code : Z) : string :=
  if (code =? 500)%Z then "Internal Server Error"
  else if (code =? 404)%Z then "Not Found"
  else EmptyString.

(** Modelled from the spec: [http.Error(w, msg, code)] of net/http, "a
    simple fixed-status-code responder": plain-text headers, the status
    line, then the message and a newline. *)
Definition newline : string := String (Ascii.ascii_of_nat 10) EmptyString.

Definition http_Error_ops (msg : string) (code : Z) : list SinkOp :=
  [ HeaderDel "Content-Length";
    HeaderSet "Content-Type" "text/plain; charset=utf-8";
    HeaderSet "X-Content-Type-Options" "nosniff";
    WriteHeader code;
    Write (msg +:+ newline) ].

Definition http_Error (w : ResponseWriter) (msg : string) (code : Z) (e : Env)
  : option Env :=
  match w with
  | None => None
  | Some k => Some (sink_send k (http_Error_ops msg code) e)
  end.

(** [http.NotFound(w, r)] *)
Definition http_NotFound (w : ResponseWriter) (e : Env) : option Env :=
  http_Error w "404 page not found" StatusNotFound e.

(** The [%v] verb applied to an [error]. *)
Definition fmt_v (err : error) : string :=
  match err with
  | None => "<nil>"
  | Some msg => msg
  end.

(** [var DefaultErrorHandler ErrorHandler = func(c *Context, err error) error] *)
Definition DefaultErrorHandler : ErrorHandler :=
  fun c err e =>
    match c with
    | None => (err, log_Printf ("error: " +:+ fmt_v err +:+ " (context nil)") e)
    | Some cx =>
        match ctx_res cx with
        | None => (err, log_Printf ("error: " +:+ fmt_v err +:+ " (context nil)") e)
        | Some k =>
            let e1 := log_Printf ("internal server error: " +:+ fmt_v err) e in
            (err, sink_send k (http_Error_ops (StatusText StatusInternalServerError)
                                              StatusInternalServerError) e1)
        end
    end.

(** [time.Second], in nanoseconds. *)
Definition Second : Z := 1000000000.

(** ** Slices of middleware *)

(** A slice: nil, or a header (array, length, capacity).  Every slice of
    the package starts at cell 0 of its array (the package never
    reslices). *)
Inductive Slice :=
| nilSlice
| SliceAt (ptr len cap : nat).

Definition s_ptr (s : Slice) : option nat :=
  match s with nilSlice => None | SliceAt p _ _ => Some p end.

(** [len(s)] and [cap(s)] *)
Definition s_len (s : Slice) : nat :=
  match s with nilSlice => 0 | SliceAt _ n _ => n end.

Definition s_cap (s : Slice) : nat :=
  match s with nilSlice => 0 | SliceAt _ _ c => c end.

(** ** The application: records *)

Record Config := {
  BodyLimit : Z;
  ReadTimeout : Z;     (* time.Duration, in nanoseconds *)
  WriteTimeout : Z;
  IdleTimeout : Z;
  cfg_ErrorHandler : option ErrorHandler
}.

(** The fields of [http.Server] that [New] and [Listen] set. *)
Record Server := {
  srv_Addr : string;
  srv_Handler : option nat;
  srv_ReadTimeout : Z;
  srv_WriteTimeout : Z;
  srv_IdleTimeout : Z
}.

(** [sync.Pool]: whether [New] is set, and the instances put back. *)
Record Pool := {
  pool_New : bool;
  pool_free : list nat
}.

(** What the closure passed to [HandleFunc] by [App.addRoute] captures. *)
Record Route := {
  rt_app : nat;
  rt_handler : Handler;
  rt_middleware : Slice
}.

Record App := {
  app_config : Config;
  app_pool : Pool;
  app_server : option Server;
  app_mux : option (gmap string Route);
  app_middleware : Slice
}.

(** [type Group struct { app *App; prefix string; middleware []MiddlewareFunc }] *)
Record Group := {
  g_app : option nat;
  g_prefix : string;
  g_middleware : Slice
}.

Record State := {
  arrays : list (list MiddlewareFunc);  (* written cells of each backing array *)
  ctxs : list Context;
  groups : list Group;
  apps : list App;
  env : Env
}.

(** ** State and panic monad *)

Definition M (A : Type) : Type := State -> option (A * State).

Definition ret {A} (a : A) : M A := fun st => Some (a, st).

Definition bind {A B} (c : M A) (k : A -> M B) : M B :=
  fun st => match c st with
            | Some (a, st') => k a st'
            | None => None
            end.

Definition panic {A} : M A := fun _ => None.

Notation "'let*' x ':=' c 'in' k" := (bind c (fun x => k))
  (at level 10, x pattern, c at level 100, k at level 200).

Definition lift {A} (o : option A) : M A :=
  match o with Some a => ret a | None => panic end.

Definition gets {A} (f : State -> A) : M A := fun st => Some (f st, st).

Definition with_arrays (v : list (list MiddlewareFunc)) (st : State) : State :=
  {| arrays := v; ctxs := ctxs st; groups := groups st; apps := apps st;
     env := env st |}.

Definition with_ctxs (v : list Context) (st : State) : State :=
  {| arrays := arrays st; ctxs := v; groups := groups st; apps := apps st;
     env := env st |}.

Definition with_groups (v : list Group) (st : State) : State :=
  {| arrays := arrays st; ctxs := ctxs st; groups := v; apps := apps st;
     env := env st |}.

Definition with_apps (v : list App) (st : State) : State :=
  {| arrays := arrays st; ctxs := ctxs st; groups := groups st; apps := v;
     env := env st |}.

Definition with_env (v : Env) (st : State) : State :=
  {| arrays := arrays st; ctxs := ctxs st; groups := groups st; apps := apps st;
     env := v |}.

Definition set_arrays v : M unit := fun st => Some (tt, with_arrays v st).
Definition set_ctxs v : M unit := fun st => Some (tt, with_ctxs v st).
Definition set_groups v : M unit := fun st => Some (tt, with_groups v st).
Definition set_apps v : M unit := fun st => Some (tt, with_apps v st).
Definition set_env v : M unit := fun st => Some (tt, with_env v st).

(** Dereference of a pointer into one of the heaps. *)
Definition load {A} (heap : State -> list A) (p : nat) : M A :=
  let* h := gets heap in lift (h !! p).

Definition load_app (a : nat) : M App := load apps a.
Definition load_group (g : nat) : M Group := load groups g.
Definition load_ctx (c : nat) : M Context := load ctxs c.

Definition store_app (a : nat) (v : App) : M unit :=
  let* _ := load_app a in
  let* h := gets apps in set_apps (<[a := v]> h).

Definition store_group (g : nat) (v : Group) : M unit :=
  let* _ := load_group g in
  let* h := gets groups in set_groups (<[g := v]> h).

Definition store_ctx (c : nat) (v : Context) : M unit :=
  let* _ := load_ctx c in
  let* h := gets ctxs in set_ctxs (<[c := v]> h).

(** ** Slice primitives of the language *)

(** The elements a slice shows: the first [len(s)] cells of its array. *)
Definition slice_elems (h : list (list MiddlewareFunc)) (s : Slice)
  : option (list MiddlewareFunc) :=
  match s with
  | nilSlice => Some []
  | SliceAt p n _ =>
      match h !! p with
      | Some cells => if n <=? length cells then Some (take n cells) else None
      | None => None
      end
  end.

Definition slice_read (s : Slice) : M (list MiddlewareFunc) :=
  let* h := gets arrays in lift (slice_elems h s).

(** Allocation of a backing array holding [cells]. *)
Definition alloc_array (cells : list MiddlewareFunc) : M nat :=
  let* h := gets arrays in
  let* _ := set_arrays (h ++ [cells]) in
  ret (length h).

(** [make([]MiddlewareFunc, 0, c)] *)
Definition make_slice (c : nat) : M Slice :=
  let* p := alloc_array [] in
  ret (SliceAt p 0 c).

(** Writing [xs] into the cells [at, at + len xs) of an array. *)
Definition write_cells (at_ : nat) (xs cells : list MiddlewareFunc)
  : list MiddlewareFunc :=
  take at_ cells ++ xs ++ drop (at_ + length xs) cells.

Section Package.

(** The capacity the runtime picks when [append] has to reallocate, from
    the old capacity and the length needed.  The language only promises
    that the result is large enough, which [append] enforces below. *)
Variable growslice : nat -> nat -> nat.

(** [append(s, xs...)]: in place when the capacity suffices, into a
    fresh array otherwise. *)
Definition append (s : Slice) (xs : list MiddlewareFunc) : M Slice :=
  let* old := slice_read s in
  let need := s_len s + length xs in
  if need <=? s_cap s then
    match s with
    | nilSlice => ret s
    | SliceAt p n c =>
        let* cells := load arrays p in
        let* h := gets arrays in
        let* _ := set_arrays (<[p := write_cells n xs cells]> h) in
        ret (SliceAt p need c)
    end
  else
    let* p := alloc_array (old ++ xs) in
    ret (SliceAt p need (Nat.max need (growslice (s_cap s) need))).

(** The slice the compiler builds for the arguments of a variadic call
    written out one by one: nil when there are none. *)
Definition variadic (xs : list MiddlewareFunc) : M Slice :=
  match xs with
  | [] => ret nilSlice
  | _ =>
      let* p := alloc_array xs in
      ret (SliceAt p (length xs) (length xs))
  end.

(** ** The application and its groups: operations *)

(** [New(config Config) *App] *)
Definition New (config : Config) : M nat :=
  let config :=
    if (BodyLimit config =? 0)%Z then
      {| BodyLimit := 4 * 1024 * 1024; ReadTimeout := ReadTimeout config;
         WriteTimeout := WriteTimeout config; IdleTimeout := IdleTimeout config;
         cfg_ErrorHandler := cfg_ErrorHandler config |}
    else config in
  let config :=
    if (ReadTimeout config =? 0)%Z then
      {| BodyLimit := BodyLimit config; ReadTimeout := 15 * Second;
         WriteTimeout := WriteTimeout config; IdleTimeout := IdleTimeout config;
         cfg_ErrorHandler := cfg_ErrorHandler config |}
    else config in
  let config :=
    if (WriteTimeout config =? 0)%Z then
      {| BodyLimit := BodyLimit config; ReadTimeout := ReadTimeout config;
         WriteTimeout := 15 * Second; IdleTimeout := IdleTimeout config;
         cfg_ErrorHandler := cfg_ErrorHandler config |}
    else config in
  let config :=
    if (IdleTimeout config =? 0)%Z then
      {| BodyLimit := BodyLimit config; ReadTimeout := ReadTimeout config;
         WriteTimeout := WriteTimeout config; IdleTimeout := 60 * Second;
         cfg_ErrorHandler := cfg_ErrorHandler config |}
    else config in
  let config :=
    match cfg_ErrorHandler config with
    | None =>
      {| BodyLimit := BodyLimit config; ReadTimeout := ReadTimeout config;
         WriteTimeout := WriteTimeout config; IdleTimeout := IdleTimeout config;
         cfg_ErrorHandler := Some DefaultErrorHandler |}
    | Some _ => config
    end in
  let* mw := make_slice 0 in
  let* h := gets apps in
  let app := length h in
  let* _ := set_apps (h ++ [
    {| app_config := config;
       app_pool := {| pool_New := true; pool_free := [] |};
       app_server := None;
       app_mux := Some ∅;
       app_middleware := mw |}]) in
  let* _ := store_app app
    {| app_config := config;
       app_pool := {| pool_New := true; pool_free := [] |};
       app_server := Some {| srv_Addr := EmptyString;
                             srv_Handler := Some app;
                             srv_ReadTimeout := ReadTimeout config;
                             srv_WriteTimeout := WriteTimeout config;
                             srv_IdleTimeout := IdleTimeout config |};
       app_mux := Some ∅;
       app_middleware := mw |} in
  ret app.

(** [func (app *App) Use(middleware ...MiddlewareFunc)] *)
Definition App_Use (app : nat) (middleware : Slice) : M unit :=
  let* a := load_app app in
  let* ms := slice_read middleware in
  let* cur := match app_middleware a with
              | SliceAt _ _ _ => ret (app_middleware a)
              | nilSlice => make_slice 0
              end in
  let* s := append cur ms in
  let* a := load_app app in
  store_app app
    {| app_config := app_config a; app_pool := app_pool a;
       app_server := app_server a; app_mux := app_mux a;
       app_middleware := s |}.

(** [func (app *App) Group(prefix string, middleware ...MiddlewareFunc) *Group] *)
Definition App_Group (app : nat) (prefix : string) (middleware : Slice) : M nat :=
  let* h := gets groups in
  let* _ := set_groups (h ++ [
    {| g_app := Some app; g_prefix := prefix; g_middleware := middleware |}]) in
  ret (length h).

(** The two loops [for i := len(m) - 1; i >= 0; i-- { h = m[i](h) }] of
    [addRoute] and [applyMiddleware]; [n] is [i + 1]. *)
Fixpoint wrap_down (m : list MiddlewareFunc) (n : nat) (h : Handler)
  : option Handler :=
  match n with
  | 0 => Some h
  | S i =>
      match (m !! i : option MiddlewareFunc) with
      | Some f => wrap_down m i (f h)
      | None => None
      end
  end.

(** [func (app *App) applyMiddleware(handler Handler) Handler] *)
Definition applyMiddleware (app : nat) (handler : Handler) : M Handler :=
  let* a := load_app app in
  let* m := slice_read (app_middleware a) in
  lift (wrap_down m (length m) handler).

(** [sync.Pool.Get]: an instance put back earlier, else what [New]
    builds, else nil (on which the type assertion to [*Context] panics).
    Modelled from the spec: the pool "pops a free instance or allocates a
    new zero-initialized one". *)
Definition pool_Get (app : nat) : M nat :=
  let* a := load_app app in
  match pool_free (app_pool a) with
  | c :: rest =>
      let* _ := store_app app
        {| app_config := app_config a;
           app_pool := {| pool_New := pool_New (app_pool a); pool_free := rest |};
           app_server := app_server a; app_mux := app_mux a;
           app_middleware := app_middleware a |} in
      ret c
  | [] =>
      if pool_New (app_pool a) then
        let* h := gets ctxs in
        let* _ := set_ctxs (h ++ [zeroContext]) in
        ret (length h)
      else panic
  end.

(** [sync.Pool.Put] *)
Definition pool_Put (app : nat) (c : nat) : M unit :=
  let* a := load_app app in
  store_app app
    {| app_config := app_config a;
       app_pool := {| pool_New := pool_New (app_pool a);
                      pool_free := c :: pool_free (app_pool a) |};
       app_server := app_server a; app_mux := app_mux a;
       app_middleware := app_middleware a |}.

(** Assignments to the fields of a [*Context]. *)
Definition assign_app (ctx : nat) (v : option nat) : M unit :=
  let* c := load_ctx ctx in
  store_ctx ctx {| ctx_app := v; ctx_req := ctx_req c; ctx_res := ctx_res c |}.

Definition assign_req (ctx : nat) (v : option Request) : M unit :=
  let* c := load_ctx ctx in
  store_ctx ctx {| ctx_app := ctx_app c; ctx_req := v; ctx_res := ctx_res c |}.

Definition assign_res (ctx : nat) (v : ResponseWriter) : M unit :=
  let* c := load_ctx ctx in
  store_ctx ctx {| ctx_app := ctx_app c; ctx_req := ctx_req c; ctx_res := v |}.

(** [func (app *App) acquireContext(req *http.Request, res http.ResponseWriter) *Context] *)
Definition acquireContext (app : nat) (req : option Request) (res : ResponseWriter)
  : M nat :=
  let* ctx := pool_Get app in
  let* _ := assign_app ctx (Some app) in
  let* _ := assign_req ctx req in
  let* _ := assign_res ctx res in
  ret ctx.

(** [func (app *App) releaseContext(ctx *Context)] *)
Definition releaseContext (app : nat) (ctx : nat) : M unit :=
  let* _ := assign_app ctx None in
  let* _ := assign_req ctx None in
  let* _ := assign_res ctx None in
  pool_Put app ctx.

(** [finalHandler.Handle(ctx)] *)
Definition call_Handle (h : Handler) (ctx : nat) : M error :=
  let* c := load_ctx ctx in
  let* e := gets env in
  let* _ := set_env (snd (h (Some c) e)) in
  ret (fst (h (Some c) e)).

(** [app.config.ErrorHandler(ctx, err)] *)
Definition call_ErrorHandler (app : nat) (ctx : nat) (err : error) : M error :=
  let* a := load_app app in
  let* eh := lift (cfg_ErrorHandler (app_config a)) in
  let* c := load_ctx ctx in
  let* e := gets env in
  let* _ := set_env (snd (eh (Some c) err e)) in
  ret (fst (eh (Some c) err e)).

(** The function literal that [App.addRoute] hands to [HandleFunc],
    applied to its captured variables and to [(w, r)].  The deferred
    [releaseContext] runs when the body returns. *)
Definition route_call (rt : Route) (w : ResponseWriter) (r : option Request)
  : M unit :=
  let app := rt_app rt in
  let* ctx := acquireContext app r w in
  let* middleware := slice_read (rt_middleware rt) in
  let* finalHandler :=
    lift (wrap_down middleware (length middleware) (rt_handler rt)) in
  let* finalHandler := applyMiddleware app finalHandler in
  let* err := call_Handle finalHandler ctx in
  let* _ := match err with
            | Some _ => let* _ := call_ErrorHandler app ctx err in ret tt
            | None => ret tt
            end in
  releaseContext app ctx.

(** [func (app *App) addRoute(method, path string, handler Handler, middleware ...MiddlewareFunc)].
    Modelled from the spec: [HandleFunc] of the external matcher records
    the callback under its key, the last registration of a key winning. *)
Definition App_addRoute (app : nat) (method path : string) (handler : Handler)
    (middleware : Slice) : M unit :=
  let* a := load_app app in
  let pattern := method +:+ " " +:+ path in
  let* mux := lift (app_mux a) in
  store_app app
    {| app_config := app_config a; app_pool := app_pool a;
       app_server := app_server a;
       app_mux := Some (<[pattern :=
                    {| rt_app := app; rt_handler := handler;
                       rt_middleware := middleware |}]> mux);
       app_middleware := app_middleware a |}.

Definition App_Get app path handler middleware :=
  App_addRoute app "GET" path handler middleware.
Definition App_Post app path handler middleware :=
  App_addRoute app "POST" path handler middleware.
Definition App_Put app path handler middleware :=
  App_addRoute app "PUT" path handler middleware.
Definition App_Delete app path handler middleware :=
  App_addRoute app "DELETE" path handler middleware.
Definition App_Patch app path handler middleware :=
  App_addRoute app "PATCH" path handler middleware.
Definition App_Head app path handler middleware :=
  App_addRoute app "HEAD" path handler middleware.
Definition App_Options app path handler middleware :=
  App_addRoute app "OPTIONS" path handler middleware.

(** Modelled from the spec: [ServeMux.ServeHTTP] of the external matcher,
    "dispatch(request): invoke matching callback or report no-match",
    with keys compared exactly and no-match answered by [http.NotFound]. *)
Definition mux_ServeHTTP (mux : gmap string Route) (w : ResponseWriter)
    (r : option Request) : M unit :=
  let* rq := lift r in
  match mux !! (Method rq +:+ " " +:+ Path rq) with
  | Some rt => route_call rt w r
  | None =>
      let* e := gets env in
      let* e' := lift (http_NotFound w e) in
      set_env e'
  end.

(** [func (app *App) ServeHTTP(w http.ResponseWriter, r *http.Request)] *)
Definition ServeHTTP (app : nat) (w : ResponseWriter) (r : option Request)
  : M unit :=
  let* a := load_app app in
  match app_mux a with
  | Some mux => mux_ServeHTTP mux w r
  | None =>
      let* e := gets env in
      let* e' := lift (http_NotFound w e) in
      set_env e'
  end.

(** [func (g *Group) Use(middleware ...MiddlewareFunc)] *)
Definition Group_Use (g : nat) (middleware : Slice) : M unit :=
  let* grp := load_group g in
  let* ms := slice_read middleware in
  let* s := append (g_middleware grp) ms in
  let* grp := load_group g in
  store_group g
    {| g_app := g_app grp; g_prefix := g_prefix grp; g_middleware := s |}.

(** [func (g *Group) Group(prefix string, middleware ...MiddlewareFunc) *Group] *)
Definition Group_Group (g : nat) (prefix : string) (middleware : Slice) : M nat :=
  let* grp := load_group g in
  let* ms := slice_read middleware in
  let* s := append (g_middleware grp) ms in
  let* h := gets groups in
  let* _ := set_groups (h ++ [
    {| g_app := g_app grp; g_prefix := g_prefix grp +:+ prefix;
       g_middleware := s |}]) in
  ret (length h).

(** [func (g *Group) addRoute(method, path string, handler Handler, middleware ...MiddlewareFunc)] *)
Definition Group_addRoute (g : nat) (method path : string) (handler : Handler)
    (middleware : Slice) : M unit :=
  let* grp := load_group g in
  let fullPath := g_prefix grp +:+ path in
  let* allMiddleware :=
    make_slice (s_len (g_middleware grp) + s_len middleware) in
  let* gm := slice_read (g_middleware grp) in
  let* allMiddleware := append allMiddleware gm in
  let* ms := slice_read middleware in
  let* allMiddleware := append allMiddleware ms in
  let* app := lift (g_app grp) in
  App_addRoute app method fullPath handler allMiddleware.

Definition Group_Get g path handler middleware :=
  Group_addRoute g "GET" path handler middleware.
Definition Group_Post g path handler middleware :=
  Group_addRoute g "POST" path handler middleware.
Definition Group_Put g path handler middleware :=
  Group_addRoute g "PUT" path handler middleware.
Definition Group_Delete g path handler middleware :=
  Group_addRoute g "DELETE" path handler middleware.
Definition Group_Patch g path handler middleware :=
  Group_addRoute g "PATCH" path handler middleware.
Definition Group_Head g path handler middleware :=
  Group_addRoute g "HEAD" path handler middleware.
Definition Group_Options g path handler middleware :=
  Group_addRoute g "OPTIONS" path handler middleware.

End Package.

(** ** Observations used in the statements *)

(** The zero value of [Config], and a program state before anything was
    allocated. *)
Definition zeroConfig : Config :=
  {| BodyLimit := 0; ReadTimeout := 0; WriteTimeout := 0; IdleTimeout := 0;
     cfg_ErrorHandler := None |}.

Definition emptyState : State :=
  {| arrays := []; ctxs := []; groups := []; apps := [];
     env := {| stdlog := []; sinks := ∅; events := [] |} |}.

(** The bytes and the status codes a sequence of sink calls carries. *)
Fixpoint body_written (ops : list SinkOp) : string :=
  match ops with
  | [] => EmptyString
  | Write data :: rest => data +:+ body_written rest
  | _ :: rest => body_written rest
  end.

Fixpoint status_written (ops : list SinkOp) : list Z :=
  match ops with
  | [] => []
  | WriteHeader code :: rest => code :: status_written rest
  | _ :: rest => status_written rest
  end.

(** The response sink an error handler can reach through its context. *)
Definition sink_of (c : option Context) : ResponseWriter :=
  match c with
  | None => None
  | Some cx => ctx_res cx
  end.

(** The pool can hand out a context: its first free instance is allocated,
    or it is empty and has its [New]. *)
Definition pool_ready (st : State) (a : App) : Prop :=
  match pool_free (app_pool a) with
  | c :: _ => is_Some (ctxs st !! c)
  | [] => pool_New (app_pool a) = true
  end.

(** The instance [pool_Get] hands out. *)
Definition pool_next (st : State) (a : App) : nat :=
  match pool_free (app_pool a) with
  | c :: _ => c
  | [] => length (ctxs st)
  end.

(** Every instance waiting in the pool of [a] has blank fields. *)
Definition pool_blank (st : State) (a : App) : Prop :=
  forall c, c ∈ pool_free (app_pool a) -> ctxs st !! c = Some zeroContext.

(** An application record with another free list in its pool. *)
Definition pool_with (free : list nat) (a : App) : App :=
  {| app_config := app_config a;
     app_pool := {| pool_New := pool_New (app_pool a); pool_free := free |};
     app_server := app_server a; app_mux := app_mux a;
     app_middleware := app_middleware a |}.

(** The context heap once [pool_Get] has run. *)
Definition ctxs_after_Get (a : App) (st : State) : list Context :=
  match pool_free (app_pool a) with
  | _ :: _ => ctxs st
  | [] => ctxs st ++ [zeroContext]
  end.

(** The environment a dispatch leaves: the chain runs on the populated
    context, and the error handler runs after it when it failed. *)
Definition dispatched (chain : Handler) (eh : ErrorHandler) (c : Context)
    (e : Env) : Env :=
  match fst (chain (Some c) e) with
  | Some msg => snd (eh (Some c) (Some msg) (snd (chain (Some c) e)))
  | None => snd (chain (Some c) e)
  end.

(** The state a dispatch through a route of application [app] leaves. *)
Definition after_route (app : nat) (a : App) (e : Env) (st : State) : State :=
  {| arrays := arrays st;
     ctxs := <[pool_next st a := zeroContext]> (ctxs_after_Get a st);
     groups := groups st;
     apps := <[app := pool_with (pool_next st a :: tail (pool_free (app_pool a))) a]>
               (apps st);
     env := e |}.

(** Nested application [m1 (m2 (... (mn h)))]. *)
Definition compose (ms : list MiddlewareFunc) (h : Handler) : Handler :=
  foldr (fun m acc => m acc) h ms.

(** Instrumentation: a middleware that records when control enters and
    leaves it, and a handler that records its name and returns [result]. *)
Definition probe (name : string) : MiddlewareFunc :=
  fun next c e =>
    let r := next c (emit (name +:+ ":in") e) in
    (fst r, emit (name +:+ ":out") (snd r)).

Definition say (name : string) (result : error) : Handler :=
  fun _ e => (result, emit name e).

(** Several events recorded in a row. *)
Definition emits (evs : list string) (e : Env) : Env :=
  {| stdlog := stdlog e; sinks := sinks e; events := events e ++ evs |}.

Definition entering (names : list string) : list string :=
  (fun n => n +:+ ":in") <$> names.

Definition leaving (names : list string) : list string :=
  (fun n => n +:+ ":out") <$> names.

(** The populated context a dispatch of application [app] works on. *)
Definition populated (app : nat) (r : option Request) (w : ResponseWriter)
  : Context :=
  {| ctx_app := Some app; ctx_req := r; ctx_res := w |}.

(** An application record, and a state, with another error handler
    configured. *)
Definition handler_with (eh : ErrorHandler) (a : App) : App :=
  {| app_config :=
       {| BodyLimit := BodyLimit (app_config a);
          ReadTimeout := ReadTimeout (app_config a);
          WriteTimeout := WriteTimeout (app_config a);
          IdleTimeout := IdleTimeout (app_config a);
          cfg_ErrorHandler := Some eh |};
     app_pool := app_pool a; app_server := app_server a;
     app_mux := app_mux a; app_middleware := app_middleware a |}.

Definition reconfigured (app : nat) (a : App) (eh : ErrorHandler) (st : State)
  : State :=
  with_apps (<[app := handler_with eh a]> (apps st)) st.

(** Instrumentation: an error handler that records the failure and the
    request line of the context it is called with. *)
Definition request_line (c : option Context) : string :=
  match c with
  | None => "<nil>"
  | Some cx =>
      match ctx_req cx with
      | None => "<blank>"
      | Some rq => Method rq +:+ " " +:+ Path rq
      end
  end.

Definition recorder : ErrorHandler :=
  fun c err e => (err, emit ("handled " +:+ fmt_v err +:+ " for " +:+ request_line c) e).

(** An application record with another global middleware slice, and one
    with another matcher table. *)
Definition middleware_with (s : Slice) (a : App) : App :=
  {| app_config := app_config a; app_pool := app_pool a;
     app_server := app_server a; app_mux := app_mux a;
     app_middleware := s |}.

Definition mux_with (mux : gmap string Route) (a : App) : App :=
  {| app_config := app_config a; app_pool := app_pool a;
     app_server := app_server a; app_mux := Some mux;
     app_middleware := app_middleware a |}.

(** A group record with another middleware slice. *)
Definition group_with (s : Slice) (grp : Group) : Group :=
  {| g_app := g_app grp; g_prefix := g_prefix grp; g_middleware := s |}.

(** An error handler acting like [eh] and returning [result]. *)
Definition returning (result : error) (eh : ErrorHandler) : ErrorHandler :=
  fun c err e => (result, snd (eh c err e)).

(** Concrete states used to exercise the statements: the application
    [New] builds from the zero configuration, and one with two global and
    two route middleware on the route [GET /x]. *)
Definition defaultConfig : Config :=
  {| BodyLimit := 4194304; ReadTimeout := 15000000000;
     WriteTimeout := 15000000000; IdleTimeout := 60000000000;
     cfg_ErrorHandler := Some DefaultErrorHandler |}.

Definition newApp : App :=
  {| app_config := defaultConfig;
     app_pool := {| pool_New := true; pool_free := [] |};
     app_server := Some {| srv_Addr := EmptyString; srv_Handler := Some 0;
                           srv_ReadTimeout := 15000000000;
                           srv_WriteTimeout := 15000000000;
                           srv_IdleTimeout := 60000000000 |};
     app_mux := Some ∅;
     app_middleware := SliceAt 0 0 0 |}.

Definition newState : State :=
  {| arrays := [[]]; ctxs := []; groups := []; apps := [newApp];
     env := {| stdlog := []; sinks := ∅; events := [] |} |}.

Definition demoRoute (result : error) : Route :=
  {| rt_app := 0; rt_handler := say "H" result;
     rt_middleware := SliceAt 1 2 2 |}.

Definition demoApp (result : error) : App :=
  {| app_config := defaultConfig;
     app_pool := {| pool_New := true; pool_free := [] |};
     app_server := None;
     app_mux := Some {[ "GET /x" := demoRoute result ]};
     app_middleware := SliceAt 0 2 2 |}.

Definition demoState (result : error) : State :=
  {| arrays := [[probe "g1"; probe "g2"]; [probe "r1"; probe "r2"]];
     ctxs := []; groups := []; apps := [demoApp result];
     env := {| stdlog := []; sinks := ∅; events := [] |} |}.

Definition demoRequest : Request := {| Method := "GET"; Path := "/x" |}.

(** A state with one context in flight. *)
Definition inflightState : State :=
  with_ctxs [populated 0 (Some demoRequest) (Some 5)] newState.

(** The growth policy of the gc runtime for small slices, before rounding
    to a size class: double the capacity ([append] takes the needed length
    when that is larger). *)
Definition doubling (oldcap need : nat) : nat := 2 * oldcap.

(** ** Programs against the package *)

(** The events a program leaves when run from the empty state. *)
Definition events_of (prog : M unit) : option (list string) :=
  match prog emptyState with
  | Some (_, st) => Some (events (env st))
  | None => None
  end.

Definition GET (path : string) : option Request :=
  Some {| Method := "GET"; Path := path |}.

(** [app := New(Config{}); app.Get("/a", A); app.Use(m); app.Get("/b", B)]
    followed by one request for [target]. *)
Definition use_between_routes (growslice : nat -> nat -> nat) (target : string)
  : M unit :=
  let* app := New zeroConfig in
  let* none := variadic [] in
  let* _ := App_Get app "/a" (say "A" None) none in
  let* m := variadic [probe "m"] in
  let* _ := App_Use growslice app m in
  let* none := variadic [] in
  let* _ := App_Get app "/b" (say "B" None) none in
  ServeHTTP app (Some 1) (GET target).

(** [base := append(make([]MiddlewareFunc, 0, 4), m1); g := app.Group("/api", base...)]:
    a group whose middleware slice has room left in its array. *)
Definition roomy_group (growslice : nat -> nat -> nat) : M (nat * nat) :=
  let* app := New zeroConfig in
  let* base := make_slice 4 in
  let* base := append growslice base [probe "m1"] in
  let* g := App_Group app "/api" base in
  ret (app, g).

(** [a := g.Group("/a", ma); b := g.Group("/b"); b.Use(mb); a.Get("/r", H)]
    followed by one request for [/api/a/r]. *)
Definition derive_then_sibling_use (growslice : nat -> nat -> nat) : M unit :=
  let* (app, g) := roomy_group growslice in
  let* ma := variadic [probe "ma"] in
  let* a := Group_Group growslice g "/a" ma in
  let* none := variadic [] in
  let* b := Group_Group growslice g "/b" none in
  let* mb := variadic [probe "mb"] in
  let* _ := Group_Use growslice b mb in
  let* none := variadic [] in
  let* _ := Group_Get growslice a "/r" (say "H" None) none in
  ServeHTTP app (Some 1) (GET "/api/a/r").

(** The same derivation without the sibling. *)
Definition derive_alone (growslice : nat -> nat -> nat) : M unit :=
  let* (app, g) := roomy_group growslice in
  let* ma := variadic [probe "ma"] in
  let* a := Group_Group growslice g "/a" ma in
  let* none := variadic [] in
  let* _ := Group_Get growslice a "/r" (say "H" None) none in
  ServeHTTP app (Some 1) (GET "/api/a/r").

(** [s := g.Group("/s"); t := g.Group("/t"); s.Use(ms); s.Get("/early", E);
    t.Use(mt); s.Get("/late", L)] followed by one request for [target]. *)
Definition use_in_sibling (growslice : nat -> nat -> nat) (target : string)
  : M unit :=
  let* (app, g) := roomy_group growslice in
  let* none := variadic [] in
  let* s := Group_Group growslice g "/s" none in
  let* none := variadic [] in
  let* t := Group_Group growslice g "/t" none in
  let* ms := variadic [probe "ms"] in
  let* _ := Group_Use growslice s ms in
  let* none := variadic [] in
  let* _ := Group_Get growslice s "/early" (say "E" None) none in
  let* mt := variadic [probe "mt"] in
  let* _ := Group_Use growslice t mt in
  let* none := variadic [] in
  let* _ := Group_Get growslice s "/late" (say "L" None) none in
  ServeHTTP app (Some 1) (GET target).

(** The same calls through the public interface only, the group's slice
    growing by three calls of [Use]: [g := app.Group("/api"); g.Use(m1);
    g.Use(m2); g.Use(m3); a := g.Group("/a", ma); b := g.Group("/b", mb);
    a.Get("/r", H)] followed by one request for [/api/a/r]. *)
Definition grown_group_siblings (growslice : nat -> nat -> nat) : M unit :=
  let* app := New zeroConfig in
  let* none := variadic [] in
  let* g := App_Group app "/api" none in
  let* m := variadic [probe "m1"] in
  let* _ := Group_Use growslice g m in
  let* m := variadic [probe "m2"] in
  let* _ := Group_Use growslice g m in
  let* m := variadic [probe "m3"] in
  let* _ := Group_Use growslice g m in
  let* ma := variadic [probe "ma"] in
  let* a := Group_Group growslice g "/a" ma in
  let* mb := variadic [probe "mb"] in
  let* b := Group_Group growslice g "/b" mb in
  let* none := variadic [] in
  let* _ := Group_Get growslice a "/r" (say "H" None) none in
  ServeHTTP app (Some 1) (GET "/api/a/r").

(** [g := app.Group("/api"); g.Use(m1); g.Use(m2); g.Use(m3);
    s := g.Group("/s"); t := g.Group("/t"); s.Use(ms); t.Use(mt);
    s.Get("/late", L)] followed by one request for [/api/s/late]. *)
Definition grown_group_use_in_sibling (growslice : nat -> nat -> nat) : M unit :=
  let* app := New zeroConfig in
  let* none := variadic [] in
  let* g := App_Group app "/api" none in
  let* m := variadic [probe "m1"] in
  let* _ := Group_Use growslice g m in
  let* m := variadic [probe "m2"] in
  let* _ := Group_Use growslice g m in
  let* m := variadic [probe "m3"] in
  let* _ := Group_Use growslice g m in
  let* none := variadic [] in
  let* s := Group_Group growslice g "/s" none in
  let* none := variadic [] in
  let* t := Group_Group growslice g "/t" none in
  let* ms := variadic [probe "ms"] in
  let* _ := Group_Use growslice s ms in
  let* mt := variadic [probe "mt"] in
  let* _ := Group_Use growslice t mt in
  let* none := variadic [] in
  let* _ := Group_Get growslice s "/late" (say "L" None) none in
  ServeHTTP app (Some 1) (GET "/api/s/late").

(** ** Further observations *)

(** The verb-specific registration methods of [App] and of [Group], each
    with the method name it passes to [addRoute]. *)
Definition App_verbs
  : list (string * (nat -> string -> Handler -> Slice -> M unit)) :=
  [ ("GET", App_Get); ("POST", App_Post); ("PUT", App_Put);
    ("DELETE", App_Delete); ("PATCH", App_Patch); ("HEAD", App_Head);
    ("OPTIONS", App_Options) ].

Definition Group_verbs (growslice : nat -> nat -> nat)
  : list (string * (nat -> string -> Handler -> Slice -> M unit)) :=
  [ ("GET", Group_Get growslice); ("POST", Group_Post growslice);
    ("PUT", Group_Put growslice); ("DELETE", Group_Delete growslice);
    ("PATCH", Group_Patch growslice); ("HEAD", Group_Head growslice);
    ("OPTIONS", Group_Options growslice) ].

(** The key under which the matcher files and looks up a request. *)
Definition key_of (rq : Request) : string := Method rq +:+ " " +:+ Path rq.

(** The free list of an application's pool. *)
Definition free_of (st : State) (app : nat) : list nat :=
  match apps st !! app with
  | Some a => pool_free (app_pool a)
  | None => []
  end.

(** A slice that an [append] to [s] cannot disturb. *)
Definition clear_of (s t : Slice) : Prop :=
  s_ptr t <> s_ptr s \/ s_len t <= s_len s.

(** An application that can serve: it has its matcher, its error handler
    and a usable pool whose waiting instances are blank; its global slice
    reads, and so does the slice of every route, none of which an [append]
    to the global slice can disturb. *)
Definition ready (st : State) (app : nat) : Prop :=
  exists a mux eh G,
    apps st !! app = Some a /\ app_mux a = Some mux /\
    cfg_ErrorHandler (app_config a) = Some eh /\
    slice_elems (arrays st) (app_middleware a) = Some G /\
    pool_ready st a /\ pool_blank st a /\
    forall key rt, mux !! key = Some rt ->
      rt_app rt = app /\
      is_Some (slice_elems (arrays st) (rt_middleware rt)) /\
      clear_of (app_middleware a) (rt_middleware rt).

(** The configuration [New] settles on: a zero field replaced by its
    default, any other value kept. *)
Definition or_default (given fallback : Z) : Z :=
  if (given =? 0)%Z then fallback else given.

(** The application record [New] stores at address [app]. *)
Definition settled (config : Config) : Config :=
  {| BodyLimit := or_default (BodyLimit config) 4194304;
     ReadTimeout := or_default (ReadTimeout config) 15000000000;
     WriteTimeout := or_default (WriteTimeout config) 15000000000;
     IdleTimeout := or_default (IdleTimeout config) 60000000000;
     cfg_ErrorHandler :=
       Some (default DefaultErrorHandler (cfg_ErrorHandler config)) |}.

Definition app_of_New (app : nat) (mw : nat) (config : Config) : App :=
  {| app_config := settled config;
     app_pool := {| pool_New := true; pool_free := [] |};
     app_server :=
       Some {| srv_Addr := EmptyString; srv_Handler := Some app;
               srv_ReadTimeout := ReadTimeout (settled config);
               srv_WriteTimeout := WriteTimeout (settled config);
               srv_IdleTimeout := IdleTimeout (settled config) |};
     app_mux := Some ∅;
     app_middleware := SliceAt mw 0 0 |}.

(** The sequence a slice shows, nothing when it does not read. *)
Definition shown (st : State) (s : Slice) : list MiddlewareFunc :=
  default [] (slice_elems (arrays st) s).

(** A state with a group: the demonstration application and the group
    [/api] bound to it, whose one middleware fills an array of its own. *)
Definition apiGroup : Group :=
  {| g_app := Some 0; g_prefix := "/api"; g_middleware := SliceAt 2 1 1 |}.

Definition groupState : State :=
  {| arrays := [[probe "g1"; probe "g2"]; [probe "r1"; probe "r2"]; [probe "a1"]];
     ctxs := []; groups := [apiGroup]; apps := [demoApp None];
     env := {| stdlog := []; sinks := ∅; events := [] |} |}.

(** ** The server and the matcher as the package uses them *)

(** The durations and sizes a [Server] carries: of the fields of
    [http.Server], [New] sets the handler and these three, and leaves
    every other field at its zero value. *)
Definition server_numbers (srv : Server) : list Z :=
  [srv_ReadTimeout srv; srv_WriteTimeout srv; srv_IdleTimeout srv].

(** The zero value of [App], which a caller can build without [New]: no
    matcher, no server, a pool without [New], a nil global slice. *)
Definition bareApp : App :=
  {| app_config := zeroConfig;
     app_pool := {| pool_New := false; pool_free := [] |};
     app_server := None; app_mux := None;
     app_middleware := nilSlice |}.

Definition bareState : State := with_apps [bareApp] emptyState.

(** [App.ServeHTTP] with the [ServeHTTP] of the external matcher as a
    parameter; [ServeHTTP] above is this function at [mux_ServeHTTP]. *)
Definition ServeHTTP_with
    (matcher : gmap string Route -> ResponseWriter -> option Request -> M unit)
    (app : nat) (w : ResponseWriter) (r : option Request) : M unit :=
  let* a := load_app app in
  match app_mux a with
  | Some mux => matcher mux w r
  | None =>
      let* e := gets env in
      let* e' := lift (http_NotFound w e) in
      set_env e'
  end.








(** The calls a sink has received so far. *)
Definition received (e : Env) (w : nat) : list SinkOp :=
  default [] (sinks e !! w).






(** * Properties *)

(** ** Running monadic code *)

Lemma bind_run {A B} (c : M A) (k : A -> M B) st a st' :
  c st = Some (a, st') -> bind c k st = k a st'.
Proof. unfold bind. now intros ->. Qed.

Lemma load_run {A} (heap : State -> list A) p v st :
  heap st !! p = Some v -> load heap p st = Some (v, st).
Proof. unfold load, bind, gets, lift. now intros ->. Qed.

Lemma store_app_run a v0 v st :
  apps st !! a = Some v0 ->
  store_app a v st = Some (tt, with_apps (<[a := v]> (apps st)) st).
Proof.
  intros H. unfold store_app, load_app.
  rewrite (bind_run _ _ _ _ _ (load_run apps a v0 st H)). reflexivity.
Qed.

Lemma store_ctx_run c v0 v st :
  ctxs st !! c = Some v0 ->
  store_ctx c v st = Some (tt, with_ctxs (<[c := v]> (ctxs st)) st).
Proof.
  intros H. unfold store_ctx, load_ctx.
  rewrite (bind_run _ _ _ _ _ (load_run ctxs c v0 st H)). reflexivity.
Qed.

Lemma store_group_run g v0 v st :
  groups st !! g = Some v0 ->
  store_group g v st = Some (tt, with_groups (<[g := v]> (groups st)) st).
Proof.
  intros H. unfold store_group, load_group.
  rewrite (bind_run _ _ _ _ _ (load_run groups g v0 st H)). reflexivity.
Qed.

(** A cell just pushed on a heap sits at the old length. *)
Lemma lookup_pushed {A} (h : list A) (x : A) : (h ++ [x]) !! length h = Some x.
Proof. rewrite lookup_app_r by lia. now rewrite Nat.sub_diag. Qed.

Lemma insert_pushed {A} (h : list A) (x y : A) :
  <[length h := y]> (h ++ [x]) = h ++ [y].
Proof. rewrite insert_app_r_alt by lia. now rewrite Nat.sub_diag. Qed.

Lemma lookup_inserted {A} (h : list A) i (x y : A) :
  h !! i = Some x -> <[i := y]> h !! i = Some y.
Proof. intros H. apply list_lookup_insert_eq. eapply lookup_lt_Some, H. Qed.

(** ** Construction defaults *)

(** C8, amended. For every configuration whose five fields are
    zero-valued, [New] returns an application whose configuration holds
    body limit 4*1024*1024, read and write timeouts of 15s, idle timeout of
    60s and [DefaultErrorHandler]; of these the three timeouts are also
    installed on the server, whose handler is the application, while the
    body limit and the error handler stay in the configuration. *)
Theorem New_zero_config_defaults (config : Config) (st : State) :
  BodyLimit config = 0%Z -> ReadTimeout config = 0%Z ->
  WriteTimeout config = 0%Z -> IdleTimeout config = 0%Z ->
  cfg_ErrorHandler config = None ->
  exists app a srv st',
    New config st = Some (app, st') /\
    apps st' !! app = Some a /\
    BodyLimit (app_config a) = 4194304%Z /\
    ReadTimeout (app_config a) = 15000000000%Z /\
    WriteTimeout (app_config a) = 15000000000%Z /\
    IdleTimeout (app_config a) = 60000000000%Z /\
    cfg_ErrorHandler (app_config a) = Some DefaultErrorHandler /\
    app_server a = Some srv /\
    srv_Handler srv = Some app /\
    srv_ReadTimeout srv = 15000000000%Z /\
    srv_WriteTimeout srv = 15000000000%Z /\
    srv_IdleTimeout srv = 60000000000%Z.
Proof.
  destruct config as [bl rt wt it eh]; simpl; intros -> -> -> -> ->.
  unfold New; simpl.
  unfold make_slice, alloc_array, store_app, load_app, load.
  unfold bind, gets, set_arrays, set_apps, ret, lift; simpl.
  rewrite lookup_pushed. simpl. rewrite insert_pushed.
  eexists _, _, _, _. split; [reflexivity|]. simpl.
  split; [apply lookup_pushed|]. simpl. repeat split; reflexivity.
Qed.

Lemma New_zero_config_defaults_witness :
  BodyLimit zeroConfig = 0%Z /\ ReadTimeout zeroConfig = 0%Z /\
  WriteTimeout zeroConfig = 0%Z /\ IdleTimeout zeroConfig = 0%Z /\
  cfg_ErrorHandler zeroConfig = None /\
  exists app a srv st',
    New zeroConfig emptyState = Some (app, st') /\
    apps st' !! app = Some a /\
    BodyLimit (app_config a) = 4194304%Z /\
    ReadTimeout (app_config a) = 15000000000%Z /\
    WriteTimeout (app_config a) = 15000000000%Z /\
    IdleTimeout (app_config a) = 60000000000%Z /\
    cfg_ErrorHandler (app_config a) = Some DefaultErrorHandler /\
    app_server a = Some srv /\
    srv_Handler srv = Some app /\
    srv_ReadTimeout srv = 15000000000%Z /\
    srv_WriteTimeout srv = 15000000000%Z /\
    srv_IdleTimeout srv = 60000000000%Z.
Proof.
  repeat (split; [reflexivity|]).
  apply (New_zero_config_defaults zeroConfig emptyState); reflexivity.
Defined.

(** C8 as first worded fails: the server [New] builds from the zero
    configuration carries the three timeouts and nothing that holds the
    body limit of 4*1024*1024 the configuration ends up with. *)
Lemma New_server_lacks_body_limit :
  New zeroConfig emptyState = Some (0, newState) /\
  apps newState !! 0 = Some newApp /\
  BodyLimit (app_config newApp) = 4194304%Z /\
  exists srv,
    app_server newApp = Some srv /\
    server_numbers srv = [15000000000%Z; 15000000000%Z; 60000000000%Z] /\
    BodyLimit (app_config newApp) ∉ server_numbers srv.
Proof.
  split; [reflexivity|]. split; [reflexivity|]. split; [reflexivity|].
  eexists. split; [reflexivity|]. split; [reflexivity|].
  simpl. intros H.
  repeat (apply elem_of_cons in H as [H|H]; [discriminate H|]).
  now apply elem_of_nil in H.
Qed.

(** ** The default error handler *)

(** C7. [DefaultErrorHandler] returns the failure it was given.  When the
    context or its response sink is absent it writes to no sink and only
    logs; otherwise the sink receives one status, 500, and a body that is
    the generic status text and a newline, the same calls whatever the
    failure's message is. *)
Theorem DefaultErrorHandler_post (c : option Context) (err : error) (e : Env) :
  fst (DefaultErrorHandler c err e) = err /\
  events (snd (DefaultErrorHandler c err e)) = events e /\
  match sink_of c with
  | None =>
      sinks (snd (DefaultErrorHandler c err e)) = sinks e /\
      stdlog (snd (DefaultErrorHandler c err e)) =
        stdlog e ++ ["error: " +:+ fmt_v err +:+ " (context nil)"]
  | Some k =>
      exists ops,
        sinks (snd (DefaultErrorHandler c err e)) =
          <[k := default [] (sinks e !! k) ++ ops]> (sinks e) /\
        status_written ops = [500%Z] /\
        body_written ops = "Internal Server Error" +:+ newline /\
        (forall err', sinks (snd (DefaultErrorHandler c err' e)) =
                      sinks (snd (DefaultErrorHandler c err e))) /\
        stdlog (snd (DefaultErrorHandler c err e)) =
          stdlog e ++ ["internal server error: " +:+ fmt_v err]
  end.
Proof.
  destruct c as [[a r [k|]]|]; simpl; repeat split; try reflexivity.
  exists (http_Error_ops (StatusText StatusInternalServerError)
                         StatusInternalServerError).
  repeat split; reflexivity.
Qed.

(** ** The context pool *)

Lemma assign_app_run c cx v st :
  ctxs st !! c = Some cx ->
  assign_app c v st =
    Some (tt, with_ctxs (<[c := {| ctx_app := v; ctx_req := ctx_req cx;
                                   ctx_res := ctx_res cx |}]> (ctxs st)) st).
Proof.
  intros H. unfold assign_app, load_ctx.
  rewrite (bind_run _ _ _ _ _ (load_run ctxs c cx st H)).
  now apply store_ctx_run with cx.
Qed.

Lemma assign_req_run c cx v st :
  ctxs st !! c = Some cx ->
  assign_req c v st =
    Some (tt, with_ctxs (<[c := {| ctx_app := ctx_app cx; ctx_req := v;
                                   ctx_res := ctx_res cx |}]> (ctxs st)) st).
Proof.
  intros H. unfold assign_req, load_ctx.
  rewrite (bind_run _ _ _ _ _ (load_run ctxs c cx st H)).
  now apply store_ctx_run with cx.
Qed.

Lemma assign_res_run c cx v st :
  ctxs st !! c = Some cx ->
  assign_res c v st =
    Some (tt, with_ctxs (<[c := {| ctx_app := ctx_app cx; ctx_req := ctx_req cx;
                                   ctx_res := v |}]> (ctxs st)) st).
Proof.
  intros H. unfold assign_res, load_ctx.
  rewrite (bind_run _ _ _ _ _ (load_run ctxs c cx st H)).
  now apply store_ctx_run with cx.
Qed.

(** The three assignments of [acquireContext] and of [releaseContext]
    leave the instance holding exactly the three values assigned. *)
Lemma assign_all_run {B} c cx va vr vw (k : M B) st :
  ctxs st !! c = Some cx ->
  (let* _ := assign_app c va in
   let* _ := assign_req c vr in
   let* _ := assign_res c vw in k) st =
  k (with_ctxs (<[c := {| ctx_app := va; ctx_req := vr; ctx_res := vw |}]>
                  (ctxs st)) st).
Proof.
  intros H.
  rewrite (bind_run _ _ _ _ _ (assign_app_run c cx va st H)).
  erewrite bind_run; cycle 1.
  { eapply assign_req_run. simpl. eapply lookup_inserted, H. }
  erewrite bind_run; cycle 1.
  { eapply assign_res_run. simpl. eapply lookup_inserted, lookup_inserted, H. }
  unfold with_ctxs; simpl. now rewrite !list_insert_insert_eq.
Qed.

Lemma releaseContext_run app a c cx st :
  apps st !! app = Some a -> ctxs st !! c = Some cx ->
  releaseContext app c st =
    Some (tt, with_apps (<[app := pool_with (c :: pool_free (app_pool a)) a]> (apps st))
                (with_ctxs (<[c := zeroContext]> (ctxs st)) st)).
Proof.
  intros Ha Hc. unfold releaseContext.
  rewrite (assign_all_run c cx None None None _ st Hc).
  unfold pool_Put, load_app.
  erewrite bind_run; cycle 1. { apply load_run. simpl. exact Ha. }
  erewrite store_app_run by (simpl; exact Ha). reflexivity.
Qed.

Lemma pool_with_same a : pool_with (pool_free (app_pool a)) a = a.
Proof. now destruct a as [? [? ?] ? ? ?]. Qed.

Lemma pool_Get_run app a st :
  apps st !! app = Some a -> pool_ready st a ->
  pool_Get app st =
    Some (pool_next st a,
          match pool_free (app_pool a) with
          | _ :: rest => with_apps (<[app := pool_with rest a]> (apps st)) st
          | [] => with_ctxs (ctxs st ++ [zeroContext]) st
          end).
Proof.
  intros Ha Hp. unfold pool_Get, load_app.
  rewrite (bind_run _ _ _ _ _ (load_run apps app a st Ha)).
  unfold pool_ready, pool_next in *.
  destruct (pool_free (app_pool a)) as [|c rest].
  - now rewrite Hp.
  - erewrite bind_run by (eapply store_app_run, Ha). reflexivity.
Qed.

Lemma acquireContext_spec app a r w st :
  apps st !! app = Some a -> pool_ready st a ->
  exists st1,
    acquireContext app r w st = Some (pool_next st a, st1) /\
    arrays st1 = arrays st /\ groups st1 = groups st /\ env st1 = env st /\
    ctxs st1 = <[pool_next st a :=
                  {| ctx_app := Some app; ctx_req := r; ctx_res := w |}]>
                 (ctxs_after_Get a st) /\
    ctxs st1 !! pool_next st a =
      Some {| ctx_app := Some app; ctx_req := r; ctx_res := w |} /\
    apps st1 = <[app := pool_with (tail (pool_free (app_pool a))) a]> (apps st).
Proof.
  intros Ha Hp. unfold acquireContext.
  rewrite (bind_run _ _ _ _ _ (pool_Get_run app a st Ha Hp)).
  unfold pool_ready, pool_next, ctxs_after_Get in *.
  destruct (pool_free (app_pool a)) as [|c rest] eqn:Hfree.
  - eexists. split.
    { erewrite assign_all_run by (simpl; apply lookup_pushed). reflexivity. }
    simpl. rewrite insert_pushed, lookup_pushed.
    repeat split; try reflexivity.
    rewrite <- Hfree, pool_with_same. symmetry. now apply list_insert_id.
  - destruct Hp as [cx Hc].
    eexists. split.
    { erewrite assign_all_run by (simpl; exact Hc). reflexivity. }
    simpl. repeat split; try reflexivity.
    eapply lookup_inserted, Hc.
Qed.

(** C5. [releaseContext] leaves all three fields of the instance blank and
    puts it in the pool; the next [Get] hands out that instance with its
    fields still blank, and [acquireContext] then sets all three from its
    arguments. *)
Theorem release_then_acquire (app c : nat) (a : App) (cx : Context) (st : State) :
  apps st !! app = Some a -> ctxs st !! c = Some cx ->
  exists st1 a1,
    releaseContext app c st = Some (tt, st1) /\
    ctxs st1 !! c = Some zeroContext /\
    apps st1 !! app = Some a1 /\
    pool_free (app_pool a1) = c :: pool_free (app_pool a) /\
    (exists st2, pool_Get app st1 = Some (c, st2) /\
                 ctxs st2 !! c = Some zeroContext) /\
    (forall r w, exists st3,
        acquireContext app r w st1 = Some (c, st3) /\
        ctxs st3 !! c = Some {| ctx_app := Some app; ctx_req := r; ctx_res := w |}).
Proof.
  intros Ha Hc.
  eexists _, _. split; [eapply releaseContext_run; eassumption|]. simpl.
  assert (Hc1 : <[c := zeroContext]> (ctxs st) !! c = Some zeroContext)
    by (eapply lookup_inserted, Hc).
  assert (Ha1 : <[app := pool_with (c :: pool_free (app_pool a)) a]> (apps st) !! app
                = Some (pool_with (c :: pool_free (app_pool a)) a))
    by (eapply lookup_inserted, Ha).
  split; [exact Hc1|]. split; [exact Ha1|]. split; [reflexivity|]. split.
  - erewrite pool_Get_run; [|simpl; exact Ha1|].
    + eexists. split; [reflexivity|]. exact Hc1.
    + unfold pool_ready. simpl. eexists. exact Hc1.
  - intros r w.
    edestruct (acquireContext_spec app
                 (pool_with (c :: pool_free (app_pool a)) a) r w
                 (with_apps (<[app := pool_with (c :: pool_free (app_pool a)) a]> (apps st))
                    (with_ctxs (<[c := zeroContext]> (ctxs st)) st)))
      as (st3 & Hrun & _ & _ & _ & _ & Hpop & _).
    + simpl. exact Ha1.
    + unfold pool_ready. simpl. eexists. exact Hc1.
    + exists st3. split; [exact Hrun | exact Hpop].
Qed.

(** ** Composition of the chain *)

Lemma compose_app ms1 ms2 h : compose (ms1 ++ ms2) h = compose ms1 (compose ms2 h).
Proof. unfold compose. apply foldr_app. Qed.

(** The downward loop started at [n] wraps the handler in the first [n]
    middleware, the first one outermost. *)
Lemma wrap_down_take m n h :
  n <= length m -> wrap_down m n h = Some (compose (take n m) h).
Proof.
  revert h. induction n as [|i IH]; intros h Hn.
  - reflexivity.
  - destruct (lookup_lt_is_Some_2 m i) as [f Hf]; [lia|].
    cbn [wrap_down]. rewrite Hf, IH by lia.
    now rewrite (take_S_r _ _ _ Hf), compose_app.
Qed.

Lemma wrap_down_all m h : wrap_down m (length m) h = Some (compose m h).
Proof. rewrite wrap_down_take by lia. now rewrite take_ge by lia. Qed.

Lemma slice_read_run s ms st :
  slice_elems (arrays st) s = Some ms -> slice_read s st = Some (ms, st).
Proof. intros H. unfold slice_read, bind, gets, lift. now rewrite H. Qed.

Lemma applyMiddleware_run app a G h st :
  apps st !! app = Some a ->
  slice_elems (arrays st) (app_middleware a) = Some G ->
  applyMiddleware app h st = Some (compose G h, st).
Proof.
  intros Ha HG. unfold applyMiddleware, load_app.
  rewrite (bind_run _ _ _ _ _ (load_run apps app a st Ha)).
  rewrite (bind_run _ _ _ _ _ (slice_read_run _ _ _ HG)).
  now rewrite wrap_down_all.
Qed.

Lemma call_Handle_run h c cx st :
  ctxs st !! c = Some cx ->
  call_Handle h c st =
    Some (fst (h (Some cx) (env st)), with_env (snd (h (Some cx) (env st))) st).
Proof.
  intros Hc. unfold call_Handle, load_ctx.
  rewrite (bind_run _ _ _ _ _ (load_run ctxs c cx st Hc)). reflexivity.
Qed.

Lemma call_ErrorHandler_run app a eh c cx err st :
  apps st !! app = Some a -> cfg_ErrorHandler (app_config a) = Some eh ->
  ctxs st !! c = Some cx ->
  call_ErrorHandler app c err st =
    Some (fst (eh (Some cx) err (env st)),
          with_env (snd (eh (Some cx) err (env st))) st).
Proof.
  intros Ha He Hc. unfold call_ErrorHandler, load_app, load_ctx.
  rewrite (bind_run _ _ _ _ _ (load_run apps app a st Ha)).
  rewrite He. unfold lift at 1.
  rewrite (bind_run (ret eh) _ st eh st eq_refl).
  rewrite (bind_run _ _ _ _ _ (load_run ctxs c cx st Hc)). reflexivity.
Qed.

(** ** The dispatch wrapper *)

(** What one call of the wrapper installed by [App.addRoute] does: the
    chain is composed from the slices as they read when the request
    arrives, runs on the populated context, the error handler follows a
    failure, and the context goes back to the pool cleared. *)
Lemma route_call_run rt w r st a G R eh :
  apps st !! rt_app rt = Some a -> pool_ready st a ->
  slice_elems (arrays st) (app_middleware a) = Some G ->
  slice_elems (arrays st) (rt_middleware rt) = Some R ->
  cfg_ErrorHandler (app_config a) = Some eh ->
  route_call rt w r st =
    Some (tt, after_route (rt_app rt) a
                (dispatched (compose (G ++ R) (rt_handler rt)) eh
                   {| ctx_app := Some (rt_app rt); ctx_req := r; ctx_res := w |}
                   (env st))
                st).
Proof.
  intros Ha Hp HG HR He.
  destruct (acquireContext_spec (rt_app rt) a r w st Ha Hp)
    as (st1 & Hacq & Harr & Hgrp & Henv & Hctxs & Hc & Happs).
  set (c := pool_next st a) in *.
  set (cx := {| ctx_app := Some (rt_app rt); ctx_req := r; ctx_res := w |}) in *.
  assert (Ha1 : apps st1 !! rt_app rt
                = Some (pool_with (tail (pool_free (app_pool a))) a))
    by (rewrite Happs; eapply lookup_inserted, Ha).
  unfold route_call.
  rewrite (bind_run _ _ _ _ _ Hacq).
  erewrite bind_run by (apply slice_read_run; rewrite Harr; exact HR).
  rewrite wrap_down_all. unfold lift at 1.
  erewrite bind_run by reflexivity.
  erewrite bind_run
    by (eapply applyMiddleware_run; [exact Ha1 | simpl; rewrite Harr; exact HG]).
  rewrite <- compose_app.
  set (chain := compose (G ++ R) (rt_handler rt)).
  erewrite bind_run by (apply call_Handle_run; exact Hc).
  rewrite Henv.
  unfold dispatched. fold chain.
  destruct (fst (chain (Some cx) (env st))) as [msg|].
  - erewrite (bind_run (bind _ _)); cycle 1.
    { erewrite bind_run; [reflexivity|].
      eapply call_ErrorHandler_run; [exact Ha1 | exact He | exact Hc]. }
    erewrite releaseContext_run by (simpl; eassumption).
    unfold after_route, with_apps, with_ctxs, with_env; simpl.
    rewrite Harr, Hgrp, Hctxs, Happs.
    now rewrite !list_insert_insert_eq.
  - erewrite (bind_run (ret tt)) by reflexivity.
    erewrite releaseContext_run by (simpl; eassumption).
    unfold after_route, with_apps, with_ctxs, with_env; simpl.
    rewrite Harr, Hgrp, Hctxs, Happs.
    now rewrite !list_insert_insert_eq.
Qed.

(** ** Order of observation *)

Lemma emits_nil e : emits [] e = e.
Proof. destruct e. unfold emits; simpl. now rewrite app_nil_r. Qed.

Lemma emits_emits xs ys e : emits ys (emits xs e) = emits (xs ++ ys) e.
Proof. unfold emits; simpl. now rewrite app_assoc. Qed.

Lemma emit_emits x e : emit x e = emits [x] e.
Proof. reflexivity. Qed.

(** A tier of probes around a handler: every probe is entered in
    registration order before the handler runs and left in the reverse
    order after it. *)
Lemma probes_around names h c e :
  compose (probe <$> names) h c e =
    (fst (h c (emits (entering names) e)),
     emits (reverse (leaving names)) (snd (h c (emits (entering names) e)))).
Proof.
  revert e. induction names as [|n names IH]; intros e.
  - simpl. rewrite !emits_nil. now destruct (h c e).
  - change (compose (probe <$> n :: names) h c e)
      with (probe n (compose (probe <$> names) h) c e).
    unfold probe at 1. rewrite IH. simpl fst. simpl snd.
    rewrite !emit_emits, !emits_emits.
    change (entering (n :: names)) with ([n +:+ ":in"] ++ entering names).
    change (leaving (n :: names)) with ((n +:+ ":out") :: leaving names).
    now rewrite reverse_cons.
Qed.

Lemma two_tiers_events gs rs name result c e :
  compose (probe <$> gs) (compose (probe <$> rs) (say name result)) c e =
    (result,
     emits (entering gs ++ entering rs ++ [name] ++
            reverse (leaving rs) ++ reverse (leaving gs)) e).
Proof.
  rewrite probes_around, probes_around. unfold say; simpl fst; simpl snd.
  rewrite emit_emits, !emits_emits. now rewrite <- ?app_assoc.
Qed.

(** C2. A request dispatched to a route runs [g1 (... (gm (r1 (... (rn H)))))],
    where [G] is the global sequence the application holds and [R] the
    route's own: with probes for middleware, the global ones are entered
    first, each tier in registration order, then the handler runs, and
    control leaves in the reverse order. *)
Theorem dispatch_composition_order (rt : Route) (w : ResponseWriter)
    (r : option Request) (st : State) (a : App)
    (G R : list MiddlewareFunc) (eh : ErrorHandler) :
  apps st !! rt_app rt = Some a -> pool_ready st a ->
  slice_elems (arrays st) (app_middleware a) = Some G ->
  slice_elems (arrays st) (rt_middleware rt) = Some R ->
  cfg_ErrorHandler (app_config a) = Some eh ->
  exists st',
    route_call rt w r st = Some (tt, st') /\
    env st' = dispatched (compose G (compose R (rt_handler rt))) eh
                (populated (rt_app rt) r w) (env st) /\
    forall gs rs name,
      G = probe <$> gs -> R = probe <$> rs -> rt_handler rt = say name None ->
      events (env st') =
        events (env st) ++ entering gs ++ entering rs ++ [name] ++
        reverse (leaving rs) ++ reverse (leaving gs).
Proof.
  intros Ha Hp HG HR He.
  eexists. split; [eapply route_call_run; eassumption|]. simpl.
  rewrite compose_app. split; [reflexivity|].
  intros gs rs name -> -> ->.
  unfold dispatched. now rewrite two_tiers_events.
Qed.

Lemma dispatch_composition_order_witness :
  apps (demoState None) !! 0 = Some (demoApp None) /\
  pool_ready (demoState None) (demoApp None) /\
  slice_elems (arrays (demoState None)) (app_middleware (demoApp None))
    = Some [probe "g1"; probe "g2"] /\
  slice_elems (arrays (demoState None)) (rt_middleware (demoRoute None))
    = Some [probe "r1"; probe "r2"] /\
  cfg_ErrorHandler (app_config (demoApp None)) = Some DefaultErrorHandler /\
  exists st',
    route_call (demoRoute None) (Some 5) (Some demoRequest) (demoState None)
      = Some (tt, st') /\
    env st' = dispatched
                (compose [probe "g1"; probe "g2"]
                   (compose [probe "r1"; probe "r2"] (say "H" None)))
                DefaultErrorHandler
                (populated 0 (Some demoRequest) (Some 5))
                (env (demoState None)) /\
    forall gs rs name,
      [probe "g1"; probe "g2"] = probe <$> gs ->
      [probe "r1"; probe "r2"] = probe <$> rs ->
      say "H" None = say name None ->
      events (env st') =
        events (env (demoState None)) ++ entering gs ++ entering rs ++ [name] ++
        reverse (leaving rs) ++ reverse (leaving gs).
Proof.
  repeat (split; [reflexivity|]).
  apply (dispatch_composition_order (demoRoute None) (Some 5) (Some demoRequest)
           (demoState None) (demoApp None)
           [probe "g1"; probe "g2"] [probe "r1"; probe "r2"] DefaultErrorHandler);
    reflexivity.
Defined.

(** The order the specification lists, on the demonstration state. *)
Example demo_order :
  option_map (fun x => events (env (snd x)))
    (ServeHTTP 0 (Some 5) (Some demoRequest) (demoState None))
  = Some ["g1:in"; "g2:in"; "r1:in"; "r2:in"; "H";
          "r2:out"; "r1:out"; "g2:out"; "g1:out"].
Proof. vm_compute. reflexivity. Qed.

(** ** The failure contract of the wrapper *)

Lemma after_route_released app a e st :
  apps st !! app = Some a -> pool_ready st a ->
  ctxs (after_route app a e st) !! pool_next st a = Some zeroContext /\
  apps (after_route app a e st) !! app
    = Some (pool_with (pool_next st a :: tail (pool_free (app_pool a))) a).
Proof.
  intros Ha Hp. unfold after_route; simpl. split.
  - unfold pool_ready, pool_next, ctxs_after_Get in *.
    destruct (pool_free (app_pool a)) as [|c rest].
    + rewrite insert_pushed. apply lookup_pushed.
    + destruct Hp as [cx Hc]. eapply lookup_inserted, Hc.
  - eapply lookup_inserted, Ha.
Qed.

(** C4. The wrapper of a registered route populates a context from the
    request and the response sink, runs the composed chain on it, and puts
    the context back in the pool with its fields cleared whether the chain
    failed or not.  The configured error handler runs once, on the failure
    and the populated context, after a chain that failed, and not at all
    after a chain that succeeded. *)
Theorem dispatch_failure_contract (rt : Route) (w : ResponseWriter)
    (r : option Request) (st : State) (a : App)
    (G R : list MiddlewareFunc) (eh : ErrorHandler) :
  apps st !! rt_app rt = Some a -> pool_ready st a ->
  slice_elems (arrays st) (app_middleware a) = Some G ->
  slice_elems (arrays st) (rt_middleware rt) = Some R ->
  cfg_ErrorHandler (app_config a) = Some eh ->
  exists st' a' ran,
    route_call rt w r st = Some (tt, st') /\
    ran = compose G (compose R (rt_handler rt))
            (Some (populated (rt_app rt) r w)) (env st) /\
    env st' = match fst ran with
              | Some msg => snd (eh (Some (populated (rt_app rt) r w))
                                    (Some msg) (snd ran))
              | None => snd ran
              end /\
    (eh = recorder ->
     events (env st') =
       events (snd ran) ++
       match fst ran with
       | Some msg =>
           ["handled " +:+ msg +:+ " for " +:+
            request_line (Some (populated (rt_app rt) r w))]
       | None => []
       end) /\
    ctxs st' !! pool_next st a = Some zeroContext /\
    apps st' !! rt_app rt = Some a' /\
    pool_free (app_pool a') = pool_next st a :: tail (pool_free (app_pool a)).
Proof.
  intros Ha Hp HG HR He.
  destruct (after_route_released (rt_app rt) a
              (dispatched (compose (G ++ R) (rt_handler rt)) eh
                 (populated (rt_app rt) r w) (env st)) st Ha Hp) as [Hc Ha'].
  eexists _, _, _.
  split; [eapply route_call_run; eassumption|].
  split; [reflexivity|].
  split; [simpl; unfold dispatched; now rewrite compose_app|].
  split; [|split; [exact Hc|split; [exact Ha'|reflexivity]]].
  intros ->. simpl. unfold dispatched. rewrite compose_app.
  destruct (fst _); simpl; [reflexivity | now rewrite app_nil_r].
Qed.

Lemma dispatch_failure_contract_witness :
  apps (demoState (Some "boom")) !! 0 = Some (demoApp (Some "boom")) /\
  pool_ready (demoState (Some "boom")) (demoApp (Some "boom")) /\
  slice_elems (arrays (demoState (Some "boom")))
    (app_middleware (demoApp (Some "boom"))) = Some [probe "g1"; probe "g2"] /\
  slice_elems (arrays (demoState (Some "boom")))
    (rt_middleware (demoRoute (Some "boom"))) = Some [probe "r1"; probe "r2"] /\
  cfg_ErrorHandler (app_config (demoApp (Some "boom"))) = Some DefaultErrorHandler /\
  exists st' a' ran,
    route_call (demoRoute (Some "boom")) (Some 5) (Some demoRequest)
      (demoState (Some "boom")) = Some (tt, st') /\
    ran = compose [probe "g1"; probe "g2"]
            (compose [probe "r1"; probe "r2"] (say "H" (Some "boom")))
            (Some (populated 0 (Some demoRequest) (Some 5)))
            (env (demoState (Some "boom"))) /\
    env st' = match fst ran with
              | Some msg => snd (DefaultErrorHandler
                                   (Some (populated 0 (Some demoRequest) (Some 5)))
                                   (Some msg) (snd ran))
              | None => snd ran
              end /\
    (DefaultErrorHandler = recorder ->
     events (env st') =
       events (snd ran) ++
       match fst ran with
       | Some msg =>
           ["handled " +:+ msg +:+ " for " +:+
            request_line (Some (populated 0 (Some demoRequest) (Some 5)))]
       | None => []
       end) /\
    ctxs st' !! 0 = Some zeroContext /\
    apps st' !! 0 = Some a' /\
    pool_free (app_pool a') = [0].
Proof.
  repeat (split; [reflexivity|]).
  apply (dispatch_failure_contract (demoRoute (Some "boom")) (Some 5)
           (Some demoRequest) (demoState (Some "boom")) (demoApp (Some "boom"))
           [probe "g1"; probe "g2"] [probe "r1"; probe "r2"] DefaultErrorHandler);
    reflexivity.
Defined.

(** A failing chain on the demonstration state, with the recording error
    handler configured: it is called once, after the chain has unwound. *)
Example demo_failure_handled_once :
  option_map (fun x => events (env (snd x)))
    (ServeHTTP 0 (Some 5) (Some demoRequest)
       (reconfigured 0 (demoApp (Some "boom")) recorder (demoState (Some "boom"))))
  = Some ["g1:in"; "g2:in"; "r1:in"; "r2:in"; "H";
          "r2:out"; "r1:out"; "g2:out"; "g1:out";
          "handled boom for GET /x"].
Proof. vm_compute. reflexivity. Qed.

(** C10. The value the error handler returns is dropped by the wrapper:
    with an error handler that acts on the environment like the configured
    one but returns something else, a dispatch ends in the same state but
    for the handler configured; the environment, contexts, arrays and
    groups are the same, and so are the pool, the matcher, the global
    slice, the server and the other settings of every application. *)
Theorem error_handler_result_discarded (rt : Route) (w : ResponseWriter)
    (r : option Request) (st : State) (a : App)
    (G R : list MiddlewareFunc) (eh eh' : ErrorHandler) :
  apps st !! rt_app rt = Some a -> pool_ready st a ->
  slice_elems (arrays st) (app_middleware a) = Some G ->
  slice_elems (arrays st) (rt_middleware rt) = Some R ->
  cfg_ErrorHandler (app_config a) = Some eh ->
  (forall c err e, snd (eh' c err e) = snd (eh c err e)) ->
  exists st1 st2 a1,
    route_call rt w r st = Some (tt, st1) /\
    route_call rt w r (reconfigured (rt_app rt) a eh' st) = Some (tt, st2) /\
    env st1 = env st2 /\ ctxs st1 = ctxs st2 /\ arrays st1 = arrays st2 /\
    groups st1 = groups st2 /\
    app_pool <$> apps st1 = app_pool <$> apps st2 /\
    app_mux <$> apps st1 = app_mux <$> apps st2 /\
    app_middleware <$> apps st1 = app_middleware <$> apps st2 /\
    app_server <$> apps st1 = app_server <$> apps st2 /\
    apps st1 !! rt_app rt = Some a1 /\
    st2 = reconfigured (rt_app rt) a1 eh' st1.
Proof.
  intros Ha Hp HG HR He Hsame.
  assert (Henv : dispatched (compose (G ++ R) (rt_handler rt)) eh
                   {| ctx_app := Some (rt_app rt); ctx_req := r; ctx_res := w |}
                   (env st)
                 = dispatched (compose (G ++ R) (rt_handler rt)) eh'
                     {| ctx_app := Some (rt_app rt); ctx_req := r; ctx_res := w |}
                     (env st)).
  { unfold dispatched. destruct (fst _); [now rewrite Hsame | reflexivity]. }
  eexists _, _, _.
  split; [eapply route_call_run; eassumption|].
  split.
  { eapply (route_call_run rt w r (reconfigured (rt_app rt) a eh' st)
              (handler_with eh' a) G R eh').
    - simpl. eapply lookup_inserted, Ha.
    - exact Hp.
    - exact HG.
    - exact HR.
    - reflexivity. }
  unfold after_route, reconfigured, with_apps; simpl.
  rewrite !list_insert_insert_eq, !list_fmap_insert. simpl.
  split; [exact Henv|].
  repeat (split; [reflexivity|]).
  split; [eapply lookup_inserted, Ha|].
  now rewrite Henv.
Qed.

Lemma error_handler_result_discarded_witness :
  apps (demoState (Some "boom")) !! 0 = Some (demoApp (Some "boom")) /\
  pool_ready (demoState (Some "boom")) (demoApp (Some "boom")) /\
  slice_elems (arrays (demoState (Some "boom")))
    (app_middleware (demoApp (Some "boom"))) = Some [probe "g1"; probe "g2"] /\
  slice_elems (arrays (demoState (Some "boom")))
    (rt_middleware (demoRoute (Some "boom"))) = Some [probe "r1"; probe "r2"] /\
  cfg_ErrorHandler (app_config (demoApp (Some "boom"))) = Some DefaultErrorHandler /\
  (forall c err e, snd (returning (Some "again") DefaultErrorHandler c err e)
                   = snd (DefaultErrorHandler c err e)) /\
  exists st1 st2 a1,
    route_call (demoRoute (Some "boom")) (Some 5) (Some demoRequest)
      (demoState (Some "boom")) = Some (tt, st1) /\
    route_call (demoRoute (Some "boom")) (Some 5) (Some demoRequest)
      (reconfigured 0 (demoApp (Some "boom"))
         (returning (Some "again") DefaultErrorHandler)
         (demoState (Some "boom"))) = Some (tt, st2) /\
    env st1 = env st2 /\ ctxs st1 = ctxs st2 /\ arrays st1 = arrays st2 /\
    groups st1 = groups st2 /\
    app_pool <$> apps st1 = app_pool <$> apps st2 /\
    app_mux <$> apps st1 = app_mux <$> apps st2 /\
    app_middleware <$> apps st1 = app_middleware <$> apps st2 /\
    app_server <$> apps st1 = app_server <$> apps st2 /\
    apps st1 !! 0 = Some a1 /\
    st2 = reconfigured 0 a1 (returning (Some "again") DefaultErrorHandler) st1.
Proof.
  repeat (split; [reflexivity|]).
  apply (error_handler_result_discarded (demoRoute (Some "boom")) (Some 5)
           (Some demoRequest) (demoState (Some "boom")) (demoApp (Some "boom"))
           [probe "g1"; probe "g2"] [probe "r1"; probe "r2"]
           DefaultErrorHandler (returning (Some "again") DefaultErrorHandler));
    reflexivity.
Defined.

Lemma release_then_acquire_witness :
  apps inflightState !! 0 = Some newApp /\
  ctxs inflightState !! 0 = Some (populated 0 (Some demoRequest) (Some 5)) /\
  exists st1 a1,
    releaseContext 0 0 inflightState = Some (tt, st1) /\
    ctxs st1 !! 0 = Some zeroContext /\
    apps st1 !! 0 = Some a1 /\
    pool_free (app_pool a1) = 0 :: pool_free (app_pool newApp) /\
    (exists st2, pool_Get 0 st1 = Some (0, st2) /\
                 ctxs st2 !! 0 = Some zeroContext) /\
    (forall r w, exists st3,
        acquireContext 0 r w st1 = Some (0, st3) /\
        ctxs st3 !! 0 = Some {| ctx_app := Some 0; ctx_req := r; ctx_res := w |}).
Proof.
  repeat (split; [reflexivity|]).
  apply (release_then_acquire 0 0 newApp
           (populated 0 (Some demoRequest) (Some 5)) inflightState);
    reflexivity.
Defined.

(** Instances waiting in the pool stay blank across a release and across
    a whole dispatch, so whichever instance a later [Get] picks reads
    blank before it is populated. *)
Lemma releaseContext_keeps_blank app a c cx st :
  apps st !! app = Some a -> ctxs st !! c = Some cx -> pool_blank st a ->
  exists st',
    releaseContext app c st = Some (tt, st') /\
    apps st' !! app = Some (pool_with (c :: pool_free (app_pool a)) a) /\
    pool_blank st' (pool_with (c :: pool_free (app_pool a)) a).
Proof.
  intros Ha Hc Hblank.
  eexists. split; [eapply releaseContext_run; eassumption|]. simpl.
  split; [eapply lookup_inserted, Ha|].
  intros x Hx. simpl in *.
  destruct (decide (x = c)) as [->|Hne].
  - eapply lookup_inserted, Hc.
  - rewrite list_lookup_insert_ne by congruence.
    apply Hblank. apply elem_of_cons in Hx as [?|Hx]; [congruence | exact Hx].
Qed.

Lemma route_call_keeps_blank app a e st :
  apps st !! app = Some a -> pool_ready st a -> pool_blank st a ->
  pool_blank (after_route app a e st)
    (pool_with (pool_next st a :: tail (pool_free (app_pool a))) a).
Proof.
  intros Ha Hp Hblank x Hx.
  destruct (after_route_released app a e st Ha Hp) as [Hc _].
  simpl in *.
  destruct (decide (x = pool_next st a)) as [->|Hne]; [exact Hc|].
  rewrite list_lookup_insert_ne by congruence.
  apply elem_of_cons in Hx as [?|Hx]; [congruence|].
  unfold pool_blank, ctxs_after_Get in *.
  destruct (pool_free (app_pool a)) as [|c0 rest]; simpl in Hx.
  - now apply elem_of_nil in Hx.
  - apply Hblank. now apply elem_of_cons; right.
Qed.

(** ** The entry point *)

Lemma ServeHTTP_with_stand_in : ServeHTTP = ServeHTTP_with mux_ServeHTTP.
Proof. reflexivity. Qed.




(** [New] on the zero configuration builds [newState]. *)
Example New_builds_newState : New zeroConfig emptyState = Some (0, newState).
Proof. reflexivity. Qed.

(** ** What [append] shares *)

Lemma slice_elems_length h s ms : slice_elems h s = Some ms -> length ms = s_len s.
Proof.
  destruct s as [|p n c]; simpl.
  - now intros [= <-].
  - destruct (h !! p) as [cells|]; [|discriminate].
    destruct (n <=? length cells) eqn:Hn; [|discriminate].
    intros [= <-]. apply Nat.leb_le in Hn. now rewrite length_take_le.
Qed.

Lemma write_cells_length n xs cells :
  n <= length cells -> n + length xs <= length (write_cells n xs cells).
Proof.
  intros Hn. unfold write_cells. rewrite !length_app, length_take_le by exact Hn. lia.
Qed.

Lemma write_cells_take n xs cells :
  n <= length cells ->
  take (n + length xs) (write_cells n xs cells) = take n cells ++ xs.
Proof.
  intros Hn. unfold write_cells. rewrite app_assoc.
  apply take_app_length'. rewrite length_app, length_take_le by exact Hn. lia.
Qed.

Lemma write_cells_below n m xs cells :
  m <= n -> n <= length cells ->
  take m (write_cells n xs cells) = take m cells.
Proof.
  intros Hm Hn. unfold write_cells.
  rewrite take_app_le by (rewrite length_take_le by exact Hn; exact Hm).
  rewrite take_take. f_equal. lia.
Qed.

(** [append] returns a slice showing the old elements followed by the new
    ones.  It reuses the array of its argument exactly when the capacity
    suffices; the other slices it leaves as they were are those over other
    arrays and those over the same array that are no longer than its
    argument. *)
Lemma append_spec growslice s xs st old :
  slice_elems (arrays st) s = Some old ->
  exists s' st',
    append growslice s xs st = Some (s', st') /\
    slice_elems (arrays st') s' = Some (old ++ xs) /\
    ctxs st' = ctxs st /\ groups st' = groups st /\ apps st' = apps st /\
    env st' = env st /\
    s_ptr s' = (if s_len s + length xs <=? s_cap s then s_ptr s
                else Some (length (arrays st))) /\
    s_len s' = s_len s + length xs /\
    s_cap s <= s_cap s' /\
    forall t v,
      slice_elems (arrays st) t = Some v ->
      s_ptr t <> s_ptr s \/ s_len t <= s_len s ->
      slice_elems (arrays st') t = Some v.
Proof.
  intros H. pose proof (slice_elems_length _ _ _ H) as Hlen.
  unfold append. rewrite (bind_run _ _ _ _ _ (slice_read_run _ _ _ H)).
  destruct (s_len s + length xs <=? s_cap s) eqn:Hfit.
  - destruct s as [|p n c]; simpl in *.
    + apply Nat.leb_le in Hfit.
      assert (xs = []) as -> by (apply nil_length_inv; lia).
      injection H as <-.
      exists nilSlice, st. repeat split; try reflexivity; try tauto.
    + destruct (arrays st !! p) as [cells|] eqn:Hp; [|discriminate].
      destruct (n <=? length cells) eqn:Hn; [|discriminate].
      injection H as <-. apply Nat.leb_le in Hn.
      rewrite (bind_run _ _ _ _ _ (load_run arrays p cells st Hp)).
      eexists _, _. split; [reflexivity|]. simpl.
      split.
      { rewrite (lookup_inserted _ _ _ _ Hp).
        pose proof (write_cells_length n xs cells Hn) as Hw.
        apply Nat.leb_le in Hw. rewrite Hw.
        now rewrite write_cells_take. }
      repeat split; try reflexivity.
      intros [|q m d] v Hv Hfree; simpl in *; [exact Hv|].
      destruct (decide (p = q)) as [<-|Hne].
      * rewrite Hp in Hv. rewrite (lookup_inserted _ _ _ _ Hp).
        destruct Hfree as [Hfree|Hm]; [congruence|].
        destruct (m <=? length cells) eqn:Hmc; [|discriminate].
        apply Nat.leb_le in Hmc.
        assert (Hmw : (m <=? length (write_cells n xs cells)) = true).
        { apply Nat.leb_le.
          pose proof (write_cells_length n xs cells Hn). lia. }
        rewrite Hmw. now rewrite write_cells_below.
      * now rewrite list_lookup_insert_ne.
  - unfold alloc_array.
    eexists _, _. split; [reflexivity|]. simpl.
    split.
    { rewrite lookup_pushed.
      assert (Hw : (s_len s + length xs <=? length (old ++ xs)) = true)
        by (apply Nat.leb_le; rewrite length_app; lia).
      rewrite Hw. now rewrite take_ge by (rewrite length_app; lia). }
    repeat split; try reflexivity.
    { apply Nat.leb_gt in Hfit. lia. }
    intros [|q m d] v Hv _; simpl in *; [exact Hv|].
    destruct (arrays st !! q) as [cells|] eqn:Hq; [|discriminate].
    now rewrite (lookup_app_l_Some _ _ _ _ Hq).
Qed.

Lemma slice_elems_allocated h q m d v :
  slice_elems h (SliceAt q m d) = Some v -> q < length h.
Proof.
  simpl. destruct (h !! q) as [cells|] eqn:Hq; [|discriminate].
  intros _. eapply lookup_lt_Some, Hq.
Qed.

Lemma slice_elems_pushed h cells t v :
  slice_elems h t = Some v -> slice_elems (h ++ [cells]) t = Some v.
Proof.
  destruct t as [|q m d]; simpl; [easy|].
  destruct (h !! q) as [c|] eqn:Hq; [|discriminate].
  now rewrite (lookup_app_l_Some _ _ _ _ Hq).
Qed.

(** ** Registration *)

(** [App.Use] extends the global sequence and leaves the matcher, the
    pool and the configuration alone. *)
Lemma App_Use_spec growslice app a ms Ms G st :
  apps st !! app = Some a ->
  slice_elems (arrays st) ms = Some Ms ->
  slice_elems (arrays st) (app_middleware a) = Some G ->
  exists st' s',
    App_Use growslice app ms st = Some (tt, st') /\
    apps st' = <[app := middleware_with s' a]> (apps st) /\
    slice_elems (arrays st') s' = Some (G ++ Ms) /\
    ctxs st' = ctxs st /\ groups st' = groups st /\ env st' = env st /\
    forall t v,
      slice_elems (arrays st) t = Some v ->
      s_ptr t <> s_ptr (app_middleware a) \/ s_len t <= s_len (app_middleware a) ->
      slice_elems (arrays st') t = Some v.
Proof.
  intros Ha HMs HG. unfold App_Use, load_app.
  rewrite (bind_run _ _ _ _ _ (load_run apps app a st Ha)).
  rewrite (bind_run _ _ _ _ _ (slice_read_run _ _ _ HMs)).
  destruct (app_middleware a) as [|p n c] eqn:Hmw.
  - injection HG as <-.
    unfold make_slice, alloc_array.
    set (st0 := with_arrays (arrays st ++ [[]]) st).
    assert (H0 : slice_elems (arrays st0) (SliceAt (length (arrays st)) 0 0) = Some []).
    { simpl. now rewrite lookup_pushed. }
    destruct (append_spec growslice _ Ms st0 [] H0)
      as (s' & st' & Happ & Hs' & Hc & Hg & Hap & He & _ & _ & _ & Hframe).
    erewrite (bind_run (bind _ _) _ st (SliceAt (length (arrays st)) 0 0) st0)
      by reflexivity.
    rewrite (bind_run _ _ _ _ _ Happ).
    assert (Ha' : apps st' !! app = Some a) by (rewrite Hap; exact Ha).
    rewrite (bind_run _ _ _ _ _ (load_run apps app a st' Ha')).
    rewrite (store_app_run app a _ st' Ha').
    eexists _, s'. split; [reflexivity|]. simpl.
    rewrite Hap, Hc, Hg, He. unfold middleware_with.
    repeat split; try reflexivity; try exact Hs'.
    intros t v Hv _. apply Hframe.
    + now apply slice_elems_pushed.
    + destruct t as [|q m d]; simpl; [left; discriminate|].
      left. apply slice_elems_allocated in Hv. intros [= ->]. lia.
  - destruct (append_spec growslice _ Ms st G HG)
      as (s' & st' & Happ & Hs' & Hc & Hg & Hap & He & _ & _ & _ & Hframe).
    erewrite (bind_run (ret _)) by reflexivity.
    rewrite (bind_run _ _ _ _ _ Happ).
    assert (Ha' : apps st' !! app = Some a) by (rewrite Hap; exact Ha).
    rewrite (bind_run _ _ _ _ _ (load_run apps app a st' Ha')).
    rewrite (store_app_run app a _ st' Ha').
    eexists _, s'. split; [reflexivity|]. simpl.
    rewrite Hap. unfold middleware_with.
    repeat split; try reflexivity; try assumption.
Qed.

(** [App.addRoute] files the captured handler and slice under the key
    [method path]; nothing is composed at this point. *)
Lemma App_addRoute_run app a mux method path h ms st :
  apps st !! app = Some a -> app_mux a = Some mux ->
  App_addRoute app method path h ms st =
    Some (tt, with_apps
                (<[app := mux_with
                     (<[method +:+ " " +:+ path :=
                         {| rt_app := app; rt_handler := h; rt_middleware := ms |}]>
                        mux) a]> (apps st)) st).
Proof.
  intros Ha Hmux. unfold App_addRoute, load_app.
  rewrite (bind_run _ _ _ _ _ (load_run apps app a st Ha)).
  rewrite Hmux. unfold lift at 1.
  erewrite (bind_run (ret mux)) by reflexivity.
  now rewrite (store_app_run app a _ st Ha).
Qed.

(** [ServeHTTP] hands a request whose key is registered to the wrapper of
    that route. *)
Lemma ServeHTTP_registered app a mux rt w rq st :
  apps st !! app = Some a -> app_mux a = Some mux ->
  mux !! (Method rq +:+ " " +:+ Path rq) = Some rt ->
  ServeHTTP app w (Some rq) st = route_call rt w (Some rq) st.
Proof.
  intros Ha Hmux Hrt. unfold ServeHTTP, load_app.
  rewrite (bind_run _ _ _ _ _ (load_run apps app a st Ha)).
  rewrite Hmux. unfold mux_ServeHTTP, lift at 1.
  erewrite (bind_run (ret rq)) by reflexivity.
  now rewrite Hrt.
Qed.

(** The general form of the departure recorded for C1: whatever route the
    matcher holds, a [Use] that follows its registration extends the chain
    its requests run. *)
Lemma Use_reaches_registered_route growslice rt a ms Ms G R eh w r st :
  apps st !! rt_app rt = Some a -> pool_ready st a ->
  slice_elems (arrays st) ms = Some Ms ->
  slice_elems (arrays st) (app_middleware a) = Some G ->
  slice_elems (arrays st) (rt_middleware rt) = Some R ->
  s_ptr (rt_middleware rt) <> s_ptr (app_middleware a) \/
    s_len (rt_middleware rt) <= s_len (app_middleware a) ->
  cfg_ErrorHandler (app_config a) = Some eh ->
  exists st1 st2,
    App_Use growslice (rt_app rt) ms st = Some (tt, st1) /\
    route_call rt w r st1 = Some (tt, st2) /\
    env st2 = dispatched (compose (G ++ Ms) (compose R (rt_handler rt))) eh
                (populated (rt_app rt) r w) (env st).
Proof.
  intros Ha Hp HMs HG HR Hfree He.
  destruct (App_Use_spec growslice (rt_app rt) a ms Ms G st Ha HMs HG)
    as (st1 & s' & Huse & Hap & Hs' & Hc & _ & Henv & Hframe).
  exists st1. eexists. split; [exact Huse|].
  split.
  - eapply (route_call_run rt w r st1 (middleware_with s' a) (G ++ Ms) R eh).
    + rewrite Hap. eapply lookup_inserted, Ha.
    + unfold pool_ready in *. simpl. now rewrite Hc.
    + exact Hs'.
    + now apply Hframe.
    + exact He.
  - simpl. now rewrite compose_app, Henv.
Qed.

(** ** Groups *)

(** [Group.Use] extends the group's own sequence, in the array it already
    has when the capacity suffices. *)
Lemma Group_Use_spec growslice g grp ms Ms gm st :
  groups st !! g = Some grp ->
  slice_elems (arrays st) ms = Some Ms ->
  slice_elems (arrays st) (g_middleware grp) = Some gm ->
  exists st' s',
    Group_Use growslice g ms st = Some (tt, st') /\
    groups st' = <[g := group_with s' grp]> (groups st) /\
    slice_elems (arrays st') s' = Some (gm ++ Ms) /\
    s_ptr s' = (if s_len (g_middleware grp) + length Ms <=? s_cap (g_middleware grp)
                then s_ptr (g_middleware grp) else Some (length (arrays st))) /\
    ctxs st' = ctxs st /\ apps st' = apps st /\ env st' = env st /\
    forall t v,
      slice_elems (arrays st) t = Some v ->
      s_ptr t <> s_ptr (g_middleware grp) \/ s_len t <= s_len (g_middleware grp) ->
      slice_elems (arrays st') t = Some v.
Proof.
  intros Hg HMs Hgm. unfold Group_Use, load_group.
  rewrite (bind_run _ _ _ _ _ (load_run groups g grp st Hg)).
  rewrite (bind_run _ _ _ _ _ (slice_read_run _ _ _ HMs)).
  destruct (append_spec growslice _ Ms st gm Hgm)
    as (s' & st' & Happ & Hs' & Hc & Hgr & Hap & He & Hptr & _ & _ & Hframe).
  rewrite (bind_run _ _ _ _ _ Happ).
  assert (Hg' : groups st' !! g = Some grp) by (rewrite Hgr; exact Hg).
  rewrite (bind_run _ _ _ _ _ (load_run groups g grp st' Hg')).
  rewrite (store_group_run g grp _ st' Hg').
  eexists _, s'. split; [reflexivity|]. simpl.
  rewrite Hgr. unfold group_with.
  repeat split; try reflexivity; try assumption.
Qed.

(** [Group.Group] returns a new group with the concatenated prefix, whose
    sequence reads as the parent's followed by the new middleware, and
    leaves the parent as it was.  The child's slice sits in the parent's
    array whenever the parent's capacity suffices. *)
Lemma Group_Group_spec growslice g grp prefix ms Ms gm st :
  groups st !! g = Some grp ->
  slice_elems (arrays st) ms = Some Ms ->
  slice_elems (arrays st) (g_middleware grp) = Some gm ->
  exists st' child,
    Group_Group growslice g prefix ms st = Some (length (groups st), st') /\
    groups st' = groups st ++ [child] /\
    g_app child = g_app grp /\
    g_prefix child = g_prefix grp +:+ prefix /\
    slice_elems (arrays st') (g_middleware child) = Some (gm ++ Ms) /\
    slice_elems (arrays st') (g_middleware grp) = Some gm /\
    s_ptr (g_middleware child) =
      (if s_len (g_middleware grp) + length Ms <=? s_cap (g_middleware grp)
       then s_ptr (g_middleware grp) else Some (length (arrays st))) /\
    ctxs st' = ctxs st /\ apps st' = apps st /\ env st' = env st.
Proof.
  intros Hg HMs Hgm. unfold Group_Group, load_group.
  rewrite (bind_run _ _ _ _ _ (load_run groups g grp st Hg)).
  rewrite (bind_run _ _ _ _ _ (slice_read_run _ _ _ HMs)).
  destruct (append_spec growslice _ Ms st gm Hgm)
    as (s' & st' & Happ & Hs' & Hc & Hgr & Hap & He & Hptr & _ & _ & Hframe).
  rewrite (bind_run _ _ _ _ _ Happ).
  exists (with_groups
            (groups st ++ [{| g_app := g_app grp; g_prefix := g_prefix grp +:+ prefix;
                              g_middleware := s' |}]) st').
  eexists. split.
  { unfold bind, gets, set_groups, ret. rewrite Hgr. reflexivity. }
  simpl.
  repeat split; try reflexivity; try assumption.
  apply Hframe; [exact Hgm | right; lia].
Qed.

(** [Group.addRoute] registers, under [method prefix+path], a route whose
    slice is a new array holding the group's sequence followed by the
    call's middleware. *)
Lemma Group_addRoute_spec growslice g grp app a mux method path h ms Ms gm st :
  groups st !! g = Some grp -> g_app grp = Some app ->
  apps st !! app = Some a -> app_mux a = Some mux ->
  slice_elems (arrays st) ms = Some Ms ->
  slice_elems (arrays st) (g_middleware grp) = Some gm ->
  exists st' all,
    Group_addRoute growslice g method path h ms st = Some (tt, st') /\
    apps st' = <[app := mux_with
                   (<[method +:+ " " +:+ (g_prefix grp +:+ path) :=
                       {| rt_app := app; rt_handler := h; rt_middleware := all |}]>
                      mux) a]> (apps st) /\
    s_ptr all = Some (length (arrays st)) /\
    slice_elems (arrays st') all = Some (gm ++ Ms) /\
    groups st' = groups st /\ ctxs st' = ctxs st /\ env st' = env st /\
    forall t v, slice_elems (arrays st) t = Some v ->
                slice_elems (arrays st') t = Some v.
Proof.
  intros Hg Happ Ha Hmux HMs Hgm.
  pose proof (slice_elems_length _ _ _ HMs) as HlMs.
  pose proof (slice_elems_length _ _ _ Hgm) as Hlgm.
  unfold Group_addRoute, load_group.
  rewrite (bind_run _ _ _ _ _ (load_run groups g grp st Hg)).
  unfold make_slice, alloc_array.
  set (st0 := with_arrays (arrays st ++ [[]]) st).
  set (n := s_len (g_middleware grp) + s_len ms).
  erewrite (bind_run (bind _ _) _ st (SliceAt (length (arrays st)) 0 n) st0)
    by reflexivity.
  assert (Hgm0 : slice_elems (arrays st0) (g_middleware grp) = Some gm)
    by now apply slice_elems_pushed.
  assert (HMs0 : slice_elems (arrays st0) ms = Some Ms)
    by now apply slice_elems_pushed.
  rewrite (bind_run _ _ _ _ _ (slice_read_run _ _ _ Hgm0)).
  assert (H0 : slice_elems (arrays st0) (SliceAt (length (arrays st)) 0 n) = Some []).
  { simpl. now rewrite lookup_pushed. }
  destruct (append_spec growslice _ gm st0 [] H0)
    as (s1 & st1 & Happ1 & Hs1 & Hc1 & Hgr1 & Hap1 & He1 & Hptr1 & Hlen1 & Hcap1
        & Hframe1).
  rewrite (bind_run _ _ _ _ _ Happ1).
  assert (HMs1 : slice_elems (arrays st1) ms = Some Ms).
  { apply Hframe1; [exact HMs0|].
    destruct ms as [|q m d]; simpl; [left; discriminate|].
    left. apply slice_elems_allocated in HMs. intros [= ->]. lia. }
  rewrite (bind_run _ _ _ _ _ (slice_read_run _ _ _ HMs1)).
  destruct (append_spec growslice _ Ms st1 _ Hs1)
    as (s2 & st2 & Happ2 & Hs2 & Hc2 & Hgr2 & Hap2 & He2 & Hptr2 & _ & _ & Hframe2).
  rewrite (bind_run _ _ _ _ _ Happ2).
  rewrite Happ. unfold lift at 1. erewrite (bind_run (ret app)) by reflexivity.
  assert (Ha2 : apps st2 !! app = Some a) by (rewrite Hap2, Hap1; exact Ha).
  rewrite (App_addRoute_run app a mux _ _ _ _ st2 Ha2 Hmux).
  simpl in Hptr1, Hlen1, Hcap1.
  assert (Hfit1 : (length gm <=? n) = true)
    by (apply Nat.leb_le; unfold n; lia).
  rewrite Hfit1 in Hptr1.
  assert (Hfit2 : (s_len s1 + length Ms <=? s_cap s1) = true)
    by (apply Nat.leb_le; unfold n in Hcap1; lia).
  rewrite Hfit2 in Hptr2.
  eexists _, s2. split; [reflexivity|]. simpl.
  rewrite Hap2, Hap1, Hgr2, Hgr1, Hc2, Hc1, He2, He1. simpl.
  split; [reflexivity|].
  split; [now rewrite Hptr2|].
  repeat split; try reflexivity; try exact Hs2.
  intros t v Hv. apply Hframe2.
  - apply Hframe1; [now apply slice_elems_pushed|].
    destruct t as [|q m d]; simpl; [left; discriminate|].
    left. apply slice_elems_allocated in Hv. intros [= ->]. lia.
  - destruct t as [|q m d]; simpl; [left; rewrite Hptr1; discriminate|].
    left. rewrite Hptr1. apply slice_elems_allocated in Hv. intros [= ->]. lia.
Qed.

(** ** Where the package departs from its specification *)

(** C1. The global stack is read when a request is dispatched, not when
    the route is registered: after [app.Get("/a", A); app.Use(m);
    app.Get("/b", B)] a request for [/a] passes through [m] just as a
    request for [/b] does. *)
Theorem Use_reaches_earlier_route (growslice : nat -> nat -> nat) :
  events_of (use_between_routes growslice "/a") = Some ["m:in"; "A"; "m:out"] /\
  events_of (use_between_routes growslice "/b") = Some ["m:in"; "B"; "m:out"].
Proof. split; vm_compute; reflexivity. Qed.

(** C3. A group derived while the parent's slice has room left shares the
    parent's array: [a := g.Group("/a", ma)] followed by
    [b := g.Group("/b"); b.Use(mb)] leaves [a] with [mb] in the place of
    [ma], where [a] alone keeps [ma]. *)
Theorem sibling_Use_overwrites_derived_group (growslice : nat -> nat -> nat) :
  events_of (derive_then_sibling_use growslice)
    = Some ["m1:in"; "mb:in"; "H"; "mb:out"; "m1:out"] /\
  events_of (derive_alone growslice)
    = Some ["m1:in"; "ma:in"; "H"; "ma:out"; "m1:out"].
Proof. split; vm_compute; reflexivity. Qed.

(** C6. [Use] on one group reaches the routes a sibling registers later:
    after [s.Use(ms); s.Get("/early", E); t.Use(mt); s.Get("/late", L)] on
    two groups derived from a parent whose slice has room left, the early
    route of [s] runs [ms] and its late route runs [mt] instead. *)
Theorem Use_reaches_sibling_routes (growslice : nat -> nat -> nat) :
  events_of (use_in_sibling growslice "/api/s/early")
    = Some ["m1:in"; "ms:in"; "E"; "ms:out"; "m1:out"] /\
  events_of (use_in_sibling growslice "/api/s/late")
    = Some ["m1:in"; "mt:in"; "L"; "mt:out"; "m1:out"].
Proof. split; vm_compute; reflexivity. Qed.

(** Through the public interface alone, under the doubling policy: the
    third [Use] leaves capacity 4 for 3 elements, and the second derived
    group overwrites the middleware of the first. *)
Example grown_group_siblings_events :
  events_of (grown_group_siblings doubling)
    = Some ["m1:in"; "m2:in"; "m3:in"; "mb:in"; "H";
            "mb:out"; "m3:out"; "m2:out"; "m1:out"].
Proof. vm_compute. reflexivity. Qed.

Example grown_group_use_in_sibling_events :
  events_of (grown_group_use_in_sibling doubling)
    = Some ["m1:in"; "m2:in"; "m3:in"; "mt:in"; "L";
            "mt:out"; "m3:out"; "m2:out"; "m1:out"].
Proof. vm_compute. reflexivity. Qed.

(** * Further properties of the package *)

(** ** Construction *)

(** X1. [New] replaces exactly the zero-valued fields: any non-zero body
    limit (also a negative one) or timeout and any supplied error handler
    is kept, and the server is given the timeouts the configuration ends
    up with. *)
Theorem New_keeps_explicit_settings (config : Config) (st : State) :
  exists a srv st',
    New config st = Some (length (apps st), st') /\
    apps st' !! length (apps st) = Some a /\
    BodyLimit (app_config a) = or_default (BodyLimit config) 4194304 /\
    ReadTimeout (app_config a) = or_default (ReadTimeout config) 15000000000 /\
    WriteTimeout (app_config a) = or_default (WriteTimeout config) 15000000000 /\
    IdleTimeout (app_config a) = or_default (IdleTimeout config) 60000000000 /\
    cfg_ErrorHandler (app_config a)
      = Some (default DefaultErrorHandler (cfg_ErrorHandler config)) /\
    app_server a = Some srv /\
    srv_ReadTimeout srv = ReadTimeout (app_config a) /\
    srv_WriteTimeout srv = WriteTimeout (app_config a) /\
    srv_IdleTimeout srv = IdleTimeout (app_config a).
Proof.
  destruct config as [bl rt wt it eh]. unfold or_default, New; simpl.
  destruct (bl =? 0)%Z; simpl; destruct (rt =? 0)%Z; simpl;
    destruct (wt =? 0)%Z; simpl; destruct (it =? 0)%Z; simpl;
    destruct eh; simpl;
    unfold make_slice, alloc_array, store_app, load_app, load;
    unfold bind, gets, set_arrays, set_apps, ret, lift; simpl;
    rewrite lookup_pushed; simpl; rewrite insert_pushed;
    (eexists _, _, _; split; [reflexivity|]; simpl;
     split; [apply lookup_pushed|]; repeat split; reflexivity).
Qed.

Lemma New_run config st :
  New config st =
    Some (length (apps st),
          with_apps (apps st ++ [app_of_New (length (apps st))
                                   (length (arrays st)) config])
            (with_arrays (arrays st ++ [[]]) st)).
Proof.
  destruct config as [bl rt wt it eh].
  unfold app_of_New, settled, or_default, New; simpl.
  destruct (bl =? 0)%Z; simpl; destruct (rt =? 0)%Z; simpl;
    destruct (wt =? 0)%Z; simpl; destruct (it =? 0)%Z; simpl;
    destruct eh; simpl;
    unfold make_slice, alloc_array, store_app, load_app, load;
    unfold bind, gets, set_arrays, set_apps, ret, lift; simpl;
    rewrite lookup_pushed; simpl; rewrite insert_pushed; reflexivity.
Qed.

(** X2. [New] only allocates: the application it returns is a new one,
    with an empty matcher, an empty global sequence and an empty pool, and
    is able to serve; the applications, groups, contexts and slices that
    existed are as they were. *)
Theorem New_allocates_ready_app (config : Config) (st : State) :
  exists a st',
    New config st = Some (length (apps st), st') /\
    apps st' = apps st ++ [a] /\
    app_mux a = Some ∅ /\ pool_free (app_pool a) = [] /\
    slice_elems (arrays st') (app_middleware a) = Some [] /\
    ctxs st' = ctxs st /\ groups st' = groups st /\ env st' = env st /\
    (forall t v, slice_elems (arrays st) t = Some v ->
                 slice_elems (arrays st') t = Some v) /\
    ready st' (length (apps st)).
Proof.
  eexists _, _. split; [apply New_run|]. simpl.
  assert (Hmw : slice_elems (arrays st ++ [[]]) (SliceAt (length (arrays st)) 0 0)
                = Some []) by (simpl; now rewrite lookup_pushed).
  repeat split; try reflexivity; try exact Hmw.
  - intros t v Hv. now apply slice_elems_pushed.
  - eexists _, ∅, _, []. simpl.
    split; [apply lookup_pushed|]. simpl.
    split; [reflexivity|]. split; [reflexivity|]. split; [exact Hmw|].
    split; [reflexivity|].
    split; [intros c Hc; simpl in Hc; now apply elem_of_nil in Hc|].
    intros key rt Hrt. now rewrite lookup_empty in Hrt.
Qed.

Lemma App_verb_run name reg app path h ms :
  (name, reg) ∈ App_verbs ->
  reg app path h ms = App_addRoute app name path h ms.
Proof.
  unfold App_verbs. intros H.
  repeat (apply elem_of_cons in H as [[= -> ->]|H]); try reflexivity.
  now apply elem_of_nil in H.
Qed.

(** ** The pool across a dispatch *)

(** X6. A dispatch gives back what it took from the pool: when an
    instance was waiting, the free list and the number of contexts are the
    same afterwards; when none was, exactly one context is allocated and
    it is the one left waiting. *)
Theorem dispatch_pool_balance (rt : Route) (w : ResponseWriter)
    (r : option Request) (st : State) (a : App)
    (G R : list MiddlewareFunc) (eh : ErrorHandler) :
  apps st !! rt_app rt = Some a -> pool_ready st a ->
  slice_elems (arrays st) (app_middleware a) = Some G ->
  slice_elems (arrays st) (rt_middleware rt) = Some R ->
  cfg_ErrorHandler (app_config a) = Some eh ->
  exists st' a',
    route_call rt w r st = Some (tt, st') /\
    apps st' !! rt_app rt = Some a' /\
    match pool_free (app_pool a) with
    | _ :: _ =>
        pool_free (app_pool a') = pool_free (app_pool a) /\
        length (ctxs st') = length (ctxs st)
    | [] =>
        pool_free (app_pool a') = [length (ctxs st)] /\
        length (ctxs st') = S (length (ctxs st))
    end.
Proof.
  intros Ha Hp HG HR He.
  eexists _, _. split; [eapply route_call_run; eassumption|].
  split; [simpl; eapply lookup_inserted, Ha|].
  simpl. unfold pool_next, ctxs_after_Get.
  destruct (pool_free (app_pool a)) as [|c rest]; simpl.
  - split; [reflexivity|]. rewrite length_insert, length_app. simpl. lia.
  - split; [reflexivity|]. now rewrite length_insert.
Qed.

Lemma dispatch_pool_balance_witness :
  apps (demoState None) !! 0 = Some (demoApp None) /\
  pool_ready (demoState None) (demoApp None) /\
  slice_elems (arrays (demoState None)) (app_middleware (demoApp None))
    = Some [probe "g1"; probe "g2"] /\
  slice_elems (arrays (demoState None)) (rt_middleware (demoRoute None))
    = Some [probe "r1"; probe "r2"] /\
  cfg_ErrorHandler (app_config (demoApp None)) = Some DefaultErrorHandler /\
  exists st' a',
    route_call (demoRoute None) (Some 5) (Some demoRequest) (demoState None)
      = Some (tt, st') /\
    apps st' !! 0 = Some a' /\
    pool_free (app_pool a') = [0] /\
    length (ctxs st') = 1.
Proof.
  repeat (split; [reflexivity|]).
  apply (dispatch_pool_balance (demoRoute None) (Some 5) (Some demoRequest)
           (demoState None) (demoApp None)
           [probe "g1"; probe "g2"] [probe "r1"; probe "r2"] DefaultErrorHandler);
    reflexivity.
Defined.

(** ** Failure under the default configuration *)

(** X7. With [DefaultErrorHandler] configured, a request whose chain
    fails gets, on its own sink and after whatever the chain wrote there,
    the generic 500 response, and the failure's message goes to the server
    log only; the application-level events are those of the chain. *)
Theorem failing_route_answers_500 (rt : Route) (k : nat)
    (r : option Request) (st : State) (a : App)
    (G R : list MiddlewareFunc) (msg : string) :
  apps st !! rt_app rt = Some a -> pool_ready st a ->
  slice_elems (arrays st) (app_middleware a) = Some G ->
  slice_elems (arrays st) (rt_middleware rt) = Some R ->
  cfg_ErrorHandler (app_config a) = Some DefaultErrorHandler ->
  fst (compose G (compose R (rt_handler rt))
         (Some (populated (rt_app rt) r (Some k))) (env st)) = Some msg ->
  exists st' e1,
    route_call rt (Some k) r st = Some (tt, st') /\
    e1 = snd (compose G (compose R (rt_handler rt))
                (Some (populated (rt_app rt) r (Some k))) (env st)) /\
    sinks (env st') =
      <[k := default [] (sinks e1 !! k) ++
             http_Error_ops "Internal Server Error" 500]> (sinks e1) /\
    stdlog (env st') = stdlog e1 ++ ["internal server error: " +:+ msg] /\
    events (env st') = events e1.
Proof.
  intros Ha Hp HG HR He Hfail. unfold populated in *.
  eexists _, _. split; [eapply route_call_run; eassumption|].
  split; [reflexivity|].
  unfold after_route; cbn [env]. unfold dispatched.
  rewrite compose_app, Hfail.
  repeat split; reflexivity.
Qed.

Lemma failing_route_answers_500_witness :
  apps (demoState (Some "boom")) !! 0 = Some (demoApp (Some "boom")) /\
  pool_ready (demoState (Some "boom")) (demoApp (Some "boom")) /\
  slice_elems (arrays (demoState (Some "boom")))
    (app_middleware (demoApp (Some "boom"))) = Some [probe "g1"; probe "g2"] /\
  slice_elems (arrays (demoState (Some "boom")))
    (rt_middleware (demoRoute (Some "boom"))) = Some [probe "r1"; probe "r2"] /\
  cfg_ErrorHandler (app_config (demoApp (Some "boom"))) = Some DefaultErrorHandler /\
  fst (compose [probe "g1"; probe "g2"]
         (compose [probe "r1"; probe "r2"] (rt_handler (demoRoute (Some "boom"))))
         (Some (populated 0 (Some demoRequest) (Some 5)))
         (env (demoState (Some "boom")))) = Some "boom" /\
  exists st' e1,
    route_call (demoRoute (Some "boom")) (Some 5) (Some demoRequest)
      (demoState (Some "boom")) = Some (tt, st') /\
    e1 = snd (compose [probe "g1"; probe "g2"]
                (compose [probe "r1"; probe "r2"]
                   (rt_handler (demoRoute (Some "boom"))))
                (Some (populated 0 (Some demoRequest) (Some 5)))
                (env (demoState (Some "boom")))) /\
    sinks (env st') =
      <[5 := default [] (sinks e1 !! 5) ++
             http_Error_ops "Internal Server Error" 500]> (sinks e1) /\
    stdlog (env st') = stdlog e1 ++ ["internal server error: " +:+ "boom"] /\
    events (env st') = events e1.
Proof.
  repeat (split; [reflexivity|]).
  apply (failing_route_answers_500 (demoRoute (Some "boom")) 5 (Some demoRequest)
           (demoState (Some "boom")) (demoApp (Some "boom"))
           [probe "g1"; probe "g2"] [probe "r1"; probe "r2"] "boom");
    reflexivity.
Defined.

(** ** Serving keeps the application able to serve *)

Lemma free_of_run st app a :
  apps st !! app = Some a -> free_of st app = pool_free (app_pool a).
Proof. unfold free_of. now intros ->. Qed.

(** The answer to a request whose key the matcher does not hold. *)
Lemma ServeHTTP_no_match_run app a mux w rq st :
  apps st !! app = Some a -> app_mux a = Some mux ->
  mux !! key_of rq = None ->
  ServeHTTP app (Some w) (Some rq) st =
    Some (tt, with_env (sink_send w (http_Error_ops "404 page not found" 404)
                          (env st)) st) /\
  ServeHTTP app None (Some rq) st = None.
Proof.
  intros Ha Hmux Hkey. unfold ServeHTTP, load_app.
  rewrite !(bind_run _ _ _ _ _ (load_run apps app a st Ha)).
  rewrite Hmux. unfold mux_ServeHTTP, lift at 1 3.
  rewrite !(bind_run (ret rq) _ st rq st eq_refl).
  unfold key_of in Hkey. rewrite Hkey. split; reflexivity.
Qed.

(** One request on an application that can serve. *)
Lemma ready_step app w rq st :
  ready st app ->
  exists st',
    ServeHTTP app (Some w) (Some rq) st = Some (tt, st') /\
    ready st' app /\
    arrays st' = arrays st /\ groups st' = groups st /\
    ((length (ctxs st') = length (ctxs st) /\ free_of st' app = free_of st app) \/
     (free_of st app = [] /\ length (ctxs st') = S (length (ctxs st)) /\
      free_of st' app <> [])).
Proof.
  intros (a & mux & eh & G & Ha & Hmux & He & HG & Hpr & Hpb & Hroutes).
  destruct (mux !! key_of rq) as [rt|] eqn:Hkey.
  - destruct (Hroutes _ _ Hkey) as (Happ & [R HR] & _). subst app.
    rewrite (ServeHTTP_registered _ _ _ _ _ _ _ Ha Hmux Hkey).
    destruct (after_route_released (rt_app rt) a
                (dispatched (compose (G ++ R) (rt_handler rt)) eh
                   (populated (rt_app rt) (Some rq) (Some w)) (env st))
                st Ha Hpr) as [Hc Ha'].
    exists (after_route (rt_app rt) a
              (dispatched (compose (G ++ R) (rt_handler rt)) eh
                 (populated (rt_app rt) (Some rq) (Some w)) (env st)) st).
    split; [eapply route_call_run; eassumption|].
    split; [|split; [reflexivity|split; [reflexivity|]]].
    + eexists _, mux, eh, G.
      split; [exact Ha'|]. split; [exact Hmux|]. split; [exact He|].
      split; [exact HG|].
      split; [unfold pool_ready; simpl; eexists; exact Hc|].
      split; [now apply route_call_keeps_blank|].
      exact Hroutes.
    + rewrite (free_of_run _ _ _ Ha'), (free_of_run _ _ _ Ha).
      unfold after_route, pool_next, ctxs_after_Get; simpl.
      destruct (pool_free (app_pool a)) as [|c rest]; simpl.
      * right. split; [reflexivity|].
        split; [|discriminate].
        rewrite length_insert, length_app. simpl. lia.
      * left. split; [now rewrite length_insert | reflexivity].
  - destruct (ServeHTTP_no_match_run app a mux w rq st Ha Hmux Hkey) as [-> _].
    eexists. split; [reflexivity|].
    split; [|split; [reflexivity|split; [reflexivity|left; split; reflexivity]]].
    exists a, mux, eh, G.
    split; [exact Ha|]. split; [exact Hmux|]. split; [exact He|].
    split; [exact HG|]. split; [exact Hpr|]. split; [exact Hpb|exact Hroutes].
Qed.

Lemma demoState_ready result : ready (demoState result) 0.
Proof.
  exists (demoApp result), {[ "GET /x" := demoRoute result ]},
    DefaultErrorHandler, [probe "g1"; probe "g2"].
  repeat (split; [reflexivity|]).
  split; [intros c Hc; simpl in Hc; now apply elem_of_nil in Hc|].
  intros key rt Hrt. apply lookup_singleton_Some in Hrt as [_ <-].
  split; [reflexivity|]. split; [eexists; reflexivity|].
  left. discriminate.
Qed.

Lemma groupState_ready : ready groupState 0.
Proof.
  exists (demoApp None), {[ "GET /x" := demoRoute None ]},
    DefaultErrorHandler, [probe "g1"; probe "g2"].
  repeat (split; [reflexivity|]).
  split; [intros c Hc; simpl in Hc; now apply elem_of_nil in Hc|].
  intros key rt Hrt. apply lookup_singleton_Some in Hrt as [_ <-].
  split; [reflexivity|]. split; [eexists; reflexivity|].
  left. discriminate.
Qed.

(** X8. On an application that can serve, [ServeHTTP] does not panic,
    whatever the request and for any non-nil response writer, and leaves
    the application able to serve the next request; the slices and groups
    are untouched. *)
Theorem ServeHTTP_keeps_ready (app w : nat) (rq : Request) (st : State) :
  ready st app ->
  exists st',
    ServeHTTP app (Some w) (Some rq) st = Some (tt, st') /\
    ready st' app /\
    arrays st' = arrays st /\ groups st' = groups st.
Proof.
  intros Hready.
  destruct (ready_step app w rq st Hready) as (st' & Hrun & Hr & Ha & Hg & _).
  now exists st'.
Qed.

Lemma ServeHTTP_keeps_ready_witness :
  ready (demoState (Some "boom")) 0 /\
  exists st',
    ServeHTTP 0 (Some 5) (Some demoRequest) (demoState (Some "boom"))
      = Some (tt, st') /\
    ready st' 0 /\
    arrays st' = arrays (demoState (Some "boom")) /\
    groups st' = groups (demoState (Some "boom")).
Proof.
  split; [apply demoState_ready|].
  apply (ServeHTTP_keeps_ready 0 5 demoRequest (demoState (Some "boom"))).
  apply demoState_ready.
Defined.

(** ** [Use] keeps the application able to serve *)

Lemma readable_not_fresh h t v n :
  slice_elems h t = Some v -> length h <= n -> s_ptr t <> Some n.
Proof.
  destruct t as [|q m d]; [discriminate|].
  intros Hv Hn [= ->]. apply slice_elems_allocated in Hv. lia.
Qed.

(** [App.Use] in full: the slice it stores, what it shows, and the slices
    it cannot have disturbed. *)
Lemma App_Use_full growslice app a ms Ms G st :
  apps st !! app = Some a ->
  slice_elems (arrays st) ms = Some Ms ->
  slice_elems (arrays st) (app_middleware a) = Some G ->
  exists st' s',
    App_Use growslice app ms st = Some (tt, st') /\
    apps st' = <[app := middleware_with s' a]> (apps st) /\
    slice_elems (arrays st') s' = Some (G ++ Ms) /\
    ctxs st' = ctxs st /\ groups st' = groups st /\ env st' = env st /\
    (forall t v,
       slice_elems (arrays st) t = Some v -> clear_of (app_middleware a) t ->
       slice_elems (arrays st') t = Some v /\ clear_of s' t).
Proof.
  intros Ha HMs HG. unfold App_Use, load_app.
  rewrite (bind_run _ _ _ _ _ (load_run apps app a st Ha)).
  rewrite (bind_run _ _ _ _ _ (slice_read_run _ _ _ HMs)).
  destruct (app_middleware a) as [|p n c] eqn:Hmw.
  - injection HG as <-.
    unfold make_slice, alloc_array.
    set (st0 := with_arrays (arrays st ++ [[]]) st).
    assert (H0 : slice_elems (arrays st0) (SliceAt (length (arrays st)) 0 0) = Some []).
    { simpl. now rewrite lookup_pushed. }
    destruct (append_spec growslice _ Ms st0 [] H0)
      as (s' & st' & Happ & Hs' & Hc & Hg & Hap & He & Hptr & _ & _ & Hframe).
    erewrite (bind_run (bind _ _) _ st (SliceAt (length (arrays st)) 0 0) st0)
      by reflexivity.
    rewrite (bind_run _ _ _ _ _ Happ).
    assert (Ha' : apps st' !! app = Some a) by (rewrite Hap; exact Ha).
    rewrite (bind_run _ _ _ _ _ (load_run apps app a st' Ha')).
    rewrite (store_app_run app a _ st' Ha').
    eexists _, s'. split; [reflexivity|]. simpl.
    rewrite Hap, Hc, Hg, He. unfold middleware_with.
    repeat split; try reflexivity; try exact Hs'.
    + apply Hframe; [now apply slice_elems_pushed|].
      left. simpl. eapply readable_not_fresh; [eassumption|lia].
    + left. rewrite Hptr. simpl.
      destruct (_ <=? _); (eapply readable_not_fresh; [eassumption|]);
        [lia | rewrite length_app; simpl; lia].
  - destruct (append_spec growslice _ Ms st G HG)
      as (s' & st' & Happ & Hs' & Hc & Hg & Hap & He & Hptr & Hlen & _ & Hframe).
    erewrite (bind_run (ret _)) by reflexivity.
    rewrite (bind_run _ _ _ _ _ Happ).
    assert (Ha' : apps st' !! app = Some a) by (rewrite Hap; exact Ha).
    rewrite (bind_run _ _ _ _ _ (load_run apps app a st' Ha')).
    rewrite (store_app_run app a _ st' Ha').
    eexists _, s'. split; [reflexivity|]. simpl.
    rewrite Hap. unfold middleware_with.
    repeat split; try reflexivity; try assumption.
    + now apply Hframe.
    + unfold clear_of in *. rewrite Hptr, Hlen.
      destruct (_ <=? _).
      * destruct H0 as [?|?]; [now left | right; lia].
      * left. eapply readable_not_fresh; [eassumption|lia].
Qed.

(** X11. [App.Use] on an application that can serve does not panic and
    leaves it able to serve: the global sequence becomes the old one
    followed by the new middleware in the order given (unchanged when none
    is given), while the matcher, the pool and the configuration stay as
    they were. *)
Theorem App_Use_keeps_ready (growslice : nat -> nat -> nat) (app : nat)
    (ms : Slice) (Ms : list MiddlewareFunc) (st : State) :
  ready st app ->
  slice_elems (arrays st) ms = Some Ms ->
  exists st' a a',
    App_Use growslice app ms st = Some (tt, st') /\
    ready st' app /\
    apps st !! app = Some a /\ apps st' !! app = Some a' /\
    slice_elems (arrays st') (app_middleware a')
      = Some (shown st (app_middleware a) ++ Ms) /\
    app_mux a' = app_mux a /\ app_pool a' = app_pool a /\
    app_config a' = app_config a /\ app_server a' = app_server a.
Proof.
  intros (a & mux & eh & G & Ha & Hmux & He & HG & Hpr & Hpb & Hroutes) HMs.
  destruct (App_Use_full growslice app a ms Ms G st Ha HMs HG)
    as (st' & s' & Hrun & Hap & Hs' & Hc & Hg & Henv & Hframe).
  assert (Ha' : apps st' !! app = Some (middleware_with s' a))
    by (rewrite Hap; eapply lookup_inserted, Ha).
  exists st', a, (middleware_with s' a).
  split; [exact Hrun|]. split.
  - exists (middleware_with s' a), mux, eh, (G ++ Ms).
    split; [exact Ha'|]. split; [exact Hmux|]. split; [exact He|].
    split; [exact Hs'|].
    split; [unfold pool_ready in *; simpl; now rewrite Hc|].
    split; [unfold pool_blank in *; simpl; now rewrite Hc|].
    intros key rt Hrt. destruct (Hroutes _ _ Hrt) as (Happ & [R HR] & Hclear).
    destruct (Hframe _ _ HR Hclear) as [HR' Hclear'].
    split; [exact Happ|]. split; [now exists R | exact Hclear'].
  - split; [exact Ha|]. split; [exact Ha'|].
    unfold shown. rewrite HG. simpl. repeat split; try reflexivity. exact Hs'.
Qed.

Lemma App_Use_keeps_ready_witness :
  ready (demoState None) 0 /\
  slice_elems (arrays (demoState None)) (SliceAt 1 2 2)
    = Some [probe "r1"; probe "r2"] /\
  exists st' a a',
    App_Use doubling 0 (SliceAt 1 2 2) (demoState None) = Some (tt, st') /\
    ready st' 0 /\
    apps (demoState None) !! 0 = Some a /\ apps st' !! 0 = Some a' /\
    slice_elems (arrays st') (app_middleware a')
      = Some (shown (demoState None) (app_middleware a)
              ++ [probe "r1"; probe "r2"]) /\
    app_mux a' = app_mux a /\ app_pool a' = app_pool a /\
    app_config a' = app_config a /\ app_server a' = app_server a.
Proof.
  split; [apply demoState_ready|]. split; [reflexivity|].
  apply (App_Use_keeps_ready doubling 0 (SliceAt 1 2 2)
           [probe "r1"; probe "r2"] (demoState None));
    [apply demoState_ready | reflexivity].
Defined.

(** X12. The global sequence is read when a request is served: after a
    [Use], the next request to any route already in the matcher runs the
    old global sequence followed by the middleware just added, then the
    route's own middleware and its handler. *)
Theorem Use_then_serve (growslice : nat -> nat -> nat) (app w : nat)
    (a : App) (mux : gmap string Route) (rt : Route) (rq : Request)
    (ms : Slice) (Ms G R : list MiddlewareFunc) (eh : ErrorHandler)
    (st : State) :
  apps st !! app = Some a -> app_mux a = Some mux ->
  mux !! key_of rq = Some rt -> rt_app rt = app ->
  pool_ready st a ->
  slice_elems (arrays st) ms = Some Ms ->
  slice_elems (arrays st) (app_middleware a) = Some G ->
  slice_elems (arrays st) (rt_middleware rt) = Some R ->
  clear_of (app_middleware a) (rt_middleware rt) ->
  cfg_ErrorHandler (app_config a) = Some eh ->
  exists st1 st2,
    App_Use growslice app ms st = Some (tt, st1) /\
    ServeHTTP app (Some w) (Some rq) st1 = Some (tt, st2) /\
    env st2 = dispatched (compose (G ++ Ms) (compose R (rt_handler rt))) eh
                (populated app (Some rq) (Some w)) (env st).
Proof.
  intros Ha Hmux Hkey Happ Hp HMs HG HR Hclear He. subst app.
  destruct (App_Use_full growslice (rt_app rt) a ms Ms G st Ha HMs HG)
    as (st1 & s' & Hrun & Hap & Hs' & Hc & _ & Henv & Hframe).
  destruct (Hframe _ _ HR Hclear) as [HR' _].
  assert (Ha' : apps st1 !! rt_app rt = Some (middleware_with s' a))
    by (rewrite Hap; eapply lookup_inserted, Ha).
  exists st1. eexists. split; [exact Hrun|].
  rewrite (ServeHTTP_registered _ _ mux _ _ _ _ Ha' Hmux Hkey).
  split.
  - eapply (route_call_run rt _ _ st1 (middleware_with s' a) (G ++ Ms) R eh).
    + exact Ha'.
    + unfold pool_ready in *. simpl. now rewrite Hc.
    + exact Hs'.
    + exact HR'.
    + exact He.
  - simpl. now rewrite compose_app, Henv.
Qed.

Lemma Use_then_serve_witness :
  apps (demoState None) !! 0 = Some (demoApp None) /\
  app_mux (demoApp None) = Some {[ "GET /x" := demoRoute None ]} /\
  ({[ "GET /x" := demoRoute None ]} : gmap string Route) !! key_of demoRequest
    = Some (demoRoute None) /\
  rt_app (demoRoute None) = 0 /\
  pool_ready (demoState None) (demoApp None) /\
  slice_elems (arrays (demoState None)) (SliceAt 1 1 2) = Some [probe "r1"] /\
  slice_elems (arrays (demoState None)) (app_middleware (demoApp None))
    = Some [probe "g1"; probe "g2"] /\
  slice_elems (arrays (demoState None)) (rt_middleware (demoRoute None))
    = Some [probe "r1"; probe "r2"] /\
  clear_of (app_middleware (demoApp None)) (rt_middleware (demoRoute None)) /\
  cfg_ErrorHandler (app_config (demoApp None)) = Some DefaultErrorHandler /\
  exists st1 st2,
    App_Use doubling 0 (SliceAt 1 1 2) (demoState None) = Some (tt, st1) /\
    ServeHTTP 0 (Some 5) (Some demoRequest) st1 = Some (tt, st2) /\
    env st2 = dispatched
                (compose ([probe "g1"; probe "g2"] ++ [probe "r1"])
                   (compose [probe "r1"; probe "r2"]
                      (rt_handler (demoRoute None))))
                DefaultErrorHandler
                (populated 0 (Some demoRequest) (Some 5))
                (env (demoState None)).
Proof.
  repeat (split; [reflexivity|]).
  split; [left; discriminate|]. split; [reflexivity|].
  apply (Use_then_serve doubling 0 5 (demoApp None)
           {[ "GET /x" := demoRoute None ]} (demoRoute None) demoRequest
           (SliceAt 1 1 2) [probe "r1"] [probe "g1"; probe "g2"]
           [probe "r1"; probe "r2"] DefaultErrorHandler (demoState None));
    try reflexivity.
  left; discriminate.
Defined.

(** ** Routes registered through groups *)

Lemma Group_verb_run growslice name reg g path h ms :
  (name, reg) ∈ Group_verbs growslice ->
  reg g path h ms = Group_addRoute growslice g name path h ms.
Proof.
  unfold Group_verbs. intros H.
  repeat (apply elem_of_cons in H as [[= -> ->]|H]); try reflexivity.
  now apply elem_of_nil in H.
Qed.

Lemma ready_with_groups v st app : ready st app -> ready (with_groups v st) app.
Proof.
  intros (a & mux & eh & G & H). exists a, mux, eh, G. exact H.
Qed.

Lemma Group_addRoute_ready growslice g grp app method path h ms Ms gm st :
  ready st app ->
  groups st !! g = Some grp -> g_app grp = Some app ->
  slice_elems (arrays st) ms = Some Ms ->
  slice_elems (arrays st) (g_middleware grp) = Some gm ->
  exists st' a' mux' all,
    Group_addRoute growslice g method path h ms st = Some (tt, st') /\
    ready st' app /\
    apps st' !! app = Some a' /\ app_mux a' = Some mux' /\
    mux' !! (method +:+ " " +:+ (g_prefix grp +:+ path))
      = Some {| rt_app := app; rt_handler := h; rt_middleware := all |} /\
    slice_elems (arrays st') all = Some (gm ++ Ms) /\
    s_ptr all = Some (length (arrays st)) /\
    groups st' = groups st /\ ctxs st' = ctxs st /\ env st' = env st /\
    forall t v, slice_elems (arrays st) t = Some v ->
                slice_elems (arrays st') t = Some v.
Proof.
  intros (a & mux & eh & G & Ha & Hmux & He & HG & Hpr & Hpb & Hroutes)
         Hg Happ HMs Hgm.
  destruct (Group_addRoute_spec growslice g grp app a mux method path h ms Ms gm st
              Hg Happ Ha Hmux HMs Hgm)
    as (st' & all & Hrun & Hap & Hptr & Hall & Hgr & Hc & Henv & Hframe).
  set (rt := {| rt_app := app; rt_handler := h; rt_middleware := all |}) in *.
  set (key := method +:+ " " +:+ (g_prefix grp +:+ path)) in *.
  assert (Ha' : apps st' !! app = Some (mux_with (<[key := rt]> mux) a))
    by (rewrite Hap; eapply lookup_inserted, Ha).
  exists st', (mux_with (<[key := rt]> mux) a), (<[key := rt]> mux), all.
  split; [exact Hrun|]. split.
  - exists (mux_with (<[key := rt]> mux) a), (<[key := rt]> mux), eh, G.
    split; [exact Ha'|]. split; [reflexivity|]. split; [exact He|].
    split; [simpl; now apply Hframe|].
    split; [unfold pool_ready in *; simpl; now rewrite Hc|].
    split; [unfold pool_blank in *; simpl; now rewrite Hc|].
    intros k r Hr. apply lookup_insert_Some in Hr as [[_ <-]|[_ Hr]].
    + simpl. split; [reflexivity|]. split; [now exists (gm ++ Ms)|].
      left. rewrite Hptr. intros Heq. symmetry in Heq. revert Heq.
      eapply readable_not_fresh; [exact HG|lia].
    + simpl. destruct (Hroutes _ _ Hr) as (? & [R HR] & ?).
      split; [assumption|]. split; [exists R; now apply Hframe | assumption].
  - split; [exact Ha'|]. split; [reflexivity|].
    split; [apply lookup_insert_eq|].
    repeat split; assumption.
Qed.

(** X13. A route registered with any verb method of a group made by
    [App.Group] is filed under the method and the group's prefix followed
    by the path, with a middleware sequence that is the group's followed
    by the call's, held in an array of the route's own; the application
    stays able to serve. *)
Theorem group_route_registers (growslice : nat -> nat -> nat) (name : string)
    (reg : nat -> string -> Handler -> Slice -> M unit)
    (app : nat) (prefix path : string) (h : Handler) (ms ms2 : Slice)
    (Ms Ms2 : list MiddlewareFunc) (st : State) :
  (name, reg) ∈ Group_verbs growslice ->
  ready st app ->
  slice_elems (arrays st) ms = Some Ms ->
  slice_elems (arrays st) ms2 = Some Ms2 ->
  exists st1 st2 a2 mux2 all,
    App_Group app prefix ms st = Some (length (groups st), st1) /\
    reg (length (groups st)) path h ms2 st1 = Some (tt, st2) /\
    ready st2 app /\
    apps st2 !! app = Some a2 /\ app_mux a2 = Some mux2 /\
    mux2 !! (name +:+ " " +:+ (prefix +:+ path))
      = Some {| rt_app := app; rt_handler := h; rt_middleware := all |} /\
    slice_elems (arrays st2) all = Some (Ms ++ Ms2) /\
    s_ptr all = Some (length (arrays st)).
Proof.
  intros Hreg Hready HMs HMs2.
  set (grp := {| g_app := Some app; g_prefix := prefix; g_middleware := ms |}).
  set (st1 := with_groups (groups st ++ [grp]) st).
  destruct (Group_addRoute_ready growslice (length (groups st)) grp app name path h
              ms2 Ms2 Ms st1)
    as (st2 & a2 & mux2 & all & Hrun & Hr & Ha2 & Hmux2 & Hkey & Hall & Hptr & _).
  - now apply ready_with_groups.
  - apply lookup_pushed.
  - reflexivity.
  - exact HMs2.
  - exact HMs.
  - exists st1, st2, a2, mux2, all.
    split; [reflexivity|].
    rewrite (Group_verb_run _ _ _ _ _ _ _ Hreg).
    repeat split; assumption.
Qed.

Lemma group_route_registers_witness :
  ("PATCH", Group_Patch doubling) ∈ Group_verbs doubling /\
  ready groupState 0 /\
  slice_elems (arrays groupState) (SliceAt 2 1 1) = Some [probe "a1"] /\
  slice_elems (arrays groupState) (SliceAt 1 2 2) = Some [probe "r1"; probe "r2"] /\
  exists st1 st2 a2 mux2 all,
    App_Group 0 "/admin" (SliceAt 2 1 1) groupState
      = Some (length (groups groupState), st1) /\
    Group_Patch doubling (length (groups groupState)) "/u" (say "U" None)
      (SliceAt 1 2 2) st1 = Some (tt, st2) /\
    ready st2 0 /\
    apps st2 !! 0 = Some a2 /\ app_mux a2 = Some mux2 /\
    mux2 !! ("PATCH" +:+ " " +:+ ("/admin" +:+ "/u"))
      = Some {| rt_app := 0; rt_handler := say "U" None; rt_middleware := all |} /\
    slice_elems (arrays st2) all
      = Some ([probe "a1"] ++ [probe "r1"; probe "r2"]) /\
    s_ptr all = Some (length (arrays groupState)).
Proof.
  split; [unfold Group_verbs; set_solver|].
  split; [apply groupState_ready|].
  split; [reflexivity|]. split; [reflexivity|].
  apply (group_route_registers doubling "PATCH" (Group_Patch doubling) 0
           "/admin" "/u" (say "U" None) (SliceAt 2 1 1) (SliceAt 1 2 2)
           [probe "a1"] [probe "r1"; probe "r2"] groupState);
    [unfold Group_verbs; set_solver | apply groupState_ready
    | reflexivity | reflexivity].
Defined.

(** ** Derived groups *)

Lemma string_app_assoc (s1 s2 s3 : string) :
  (s1 +:+ s2) +:+ s3 = s1 +:+ (s2 +:+ s3).
Proof.
  induction s1 as [|c s1 IH]; [reflexivity|].
  change (String c ((s1 +:+ s2) +:+ s3) = String c (s1 +:+ (s2 +:+ s3))).
  now rewrite IH.
Qed.

(** [Group.Group] in full: the child it appends to the groups, where the
    child's slice sits, and the slices the call cannot have disturbed. *)
Lemma Group_Group_full growslice g grp prefix ms Ms gm st :
  groups st !! g = Some grp ->
  slice_elems (arrays st) ms = Some Ms ->
  slice_elems (arrays st) (g_middleware grp) = Some gm ->
  exists st' s',
    Group_Group growslice g prefix ms st = Some (length (groups st), st') /\
    groups st' = groups st ++
      [{| g_app := g_app grp; g_prefix := g_prefix grp +:+ prefix;
          g_middleware := s' |}] /\
    slice_elems (arrays st') s' = Some (gm ++ Ms) /\
    s_ptr s' = (if s_len (g_middleware grp) + length Ms <=? s_cap (g_middleware grp)
                then s_ptr (g_middleware grp) else Some (length (arrays st))) /\
    ctxs st' = ctxs st /\ apps st' = apps st /\ env st' = env st /\
    forall t v,
      slice_elems (arrays st) t = Some v -> clear_of (g_middleware grp) t ->
      slice_elems (arrays st') t = Some v.
Proof.
  intros Hg HMs Hgm. unfold Group_Group, load_group.
  rewrite (bind_run _ _ _ _ _ (load_run groups g grp st Hg)).
  rewrite (bind_run _ _ _ _ _ (slice_read_run _ _ _ HMs)).
  destruct (append_spec growslice _ Ms st gm Hgm)
    as (s' & st' & Happ & Hs' & Hc & Hgr & Hap & He & Hptr & _ & _ & Hframe).
  rewrite (bind_run _ _ _ _ _ Happ).
  exists (with_groups
            (groups st ++ [{| g_app := g_app grp; g_prefix := g_prefix grp +:+ prefix;
                              g_middleware := s' |}]) st'), s'.
  split.
  { unfold bind, gets, set_groups, ret. rewrite Hgr. reflexivity. }
  simpl. repeat split; try reflexivity; try assumption.
Qed.

(** X14. Deriving a group from a derived group accumulates: the inner
    group carries the outer prefix followed by both sub-prefixes and a
    sequence that reads as the parent's followed by the middleware of the
    first and then of the second derivation, and it belongs to the same
    application. *)
Theorem nested_groups_accumulate (growslice : nat -> nat -> nat) (g : nat)
    (grp : Group) (p1 p2 : string) (ms1 ms2 : Slice)
    (M1 M2 gm : list MiddlewareFunc) (st : State) :
  groups st !! g = Some grp ->
  slice_elems (arrays st) (g_middleware grp) = Some gm ->
  slice_elems (arrays st) ms1 = Some M1 ->
  slice_elems (arrays st) ms2 = Some M2 ->
  clear_of (g_middleware grp) ms2 ->
  exists st1 st2 inner,
    Group_Group growslice g p1 ms1 st = Some (length (groups st), st1) /\
    Group_Group growslice (length (groups st)) p2 ms2 st1
      = Some (S (length (groups st)), st2) /\
    groups st2 !! S (length (groups st)) = Some inner /\
    g_app inner = g_app grp /\
    g_prefix inner = g_prefix grp +:+ (p1 +:+ p2) /\
    slice_elems (arrays st2) (g_middleware inner) = Some (gm ++ M1 ++ M2).
Proof.
  intros Hg Hgm HM1 HM2 Hclear.
  destruct (Group_Group_full growslice g grp p1 ms1 M1 gm st Hg HM1 Hgm)
    as (st1 & s1 & Hrun1 & Hgr1 & Hs1 & _ & _ & _ & _ & Hframe1).
  set (child := {| g_app := g_app grp; g_prefix := g_prefix grp +:+ p1;
                   g_middleware := s1 |}) in *.
  assert (Hc1 : groups st1 !! length (groups st) = Some child)
    by (rewrite Hgr1; apply lookup_pushed).
  destruct (Group_Group_full growslice (length (groups st)) child p2 ms2 M2
              (gm ++ M1) st1 Hc1 (Hframe1 _ _ HM2 Hclear) Hs1)
    as (st2 & s2 & Hrun2 & Hgr2 & Hs2 & _).
  assert (Hlen : length (groups st1) = S (length (groups st)))
    by (rewrite Hgr1, length_app; simpl; lia).
  exists st1, st2. eexists.
  split; [exact Hrun1|]. split; [rewrite <- Hlen; exact Hrun2|].
  split; [rewrite Hgr2, <- Hlen; apply lookup_pushed|]. simpl.
  split; [reflexivity|]. split; [apply string_app_assoc|].
  now rewrite <- app_assoc in Hs2.
Qed.

Lemma nested_groups_accumulate_witness :
  groups groupState !! 0 = Some apiGroup /\
  slice_elems (arrays groupState) (g_middleware apiGroup) = Some [probe "a1"] /\
  slice_elems (arrays groupState) (SliceAt 1 1 2) = Some [probe "r1"] /\
  slice_elems (arrays groupState) (SliceAt 1 2 2) = Some [probe "r1"; probe "r2"] /\
  clear_of (g_middleware apiGroup) (SliceAt 1 2 2) /\
  exists st1 st2 inner,
    Group_Group doubling 0 "/v1" (SliceAt 1 1 2) groupState = Some (1, st1) /\
    Group_Group doubling 1 "/users" (SliceAt 1 2 2) st1 = Some (2, st2) /\
    groups st2 !! 2 = Some inner /\
    g_app inner = Some 0 /\
    g_prefix inner = "/api" +:+ ("/v1" +:+ "/users") /\
    slice_elems (arrays st2) (g_middleware inner)
      = Some ([probe "a1"] ++ [probe "r1"] ++ [probe "r1"; probe "r2"]).
Proof.
  repeat (split; [reflexivity|]).
  split; [left; discriminate|].
  apply (nested_groups_accumulate doubling 0 apiGroup "/v1" "/users"
           (SliceAt 1 1 2) (SliceAt 1 2 2)
           [probe "r1"] [probe "r1"; probe "r2"] [probe "a1"] groupState);
    try reflexivity.
  left; discriminate.
Defined.

(** X15. When the parent's slice has no room for the middleware added
    (its capacity is below the length needed), the derived group gets an
    array of its own: a later [Use] on the child leaves the parent's
    sequence as it was, and a later [Use] on the parent leaves the
    child's. *)
Theorem full_parent_isolates_child (growslice : nat -> nat -> nat) (g : nat)
    (grp : Group) (prefix : string) (ms ms' : Slice)
    (Ms Ms' gm : list MiddlewareFunc) (st : State) :
  groups st !! g = Some grp ->
  slice_elems (arrays st) (g_middleware grp) = Some gm ->
  slice_elems (arrays st) ms = Some Ms ->
  slice_elems (arrays st) ms' = Some Ms' ->
  clear_of (g_middleware grp) ms' ->
  s_cap (g_middleware grp) < s_len (g_middleware grp) + length Ms ->
  exists st1 child,
    Group_Group growslice g prefix ms st = Some (length (groups st), st1) /\
    groups st1 !! length (groups st) = Some child /\
    groups st1 !! g = Some grp /\
    slice_elems (arrays st1) (g_middleware child) = Some (gm ++ Ms) /\
    (exists st2 child2,
       Group_Use growslice (length (groups st)) ms' st1 = Some (tt, st2) /\
       groups st2 !! length (groups st) = Some child2 /\
       slice_elems (arrays st2) (g_middleware child2) = Some ((gm ++ Ms) ++ Ms') /\
       groups st2 !! g = Some grp /\
       slice_elems (arrays st2) (g_middleware grp) = Some gm) /\
    (exists st2 parent2,
       Group_Use growslice g ms' st1 = Some (tt, st2) /\
       groups st2 !! g = Some parent2 /\
       slice_elems (arrays st2) (g_middleware parent2) = Some (gm ++ Ms') /\
       groups st2 !! length (groups st) = Some child /\
       slice_elems (arrays st2) (g_middleware child) = Some (gm ++ Ms)).
Proof.
  intros Hg Hgm HMs HMs' Hclear Hfull.
  destruct (Group_Group_full growslice g grp prefix ms Ms gm st Hg HMs Hgm)
    as (st1 & s1 & Hrun1 & Hgr1 & Hs1 & Hptr1 & _ & _ & _ & Hframe1).
  assert (Hno : (s_len (g_middleware grp) + length Ms <=? s_cap (g_middleware grp))
                = false) by (apply Nat.leb_gt; exact Hfull).
  rewrite Hno in Hptr1.
  set (child := {| g_app := g_app grp; g_prefix := g_prefix grp +:+ prefix;
                   g_middleware := s1 |}) in *.
  pose proof (lookup_lt_Some _ _ _ Hg) as Hlt.
  assert (Hc1 : groups st1 !! length (groups st) = Some child)
    by (rewrite Hgr1; apply lookup_pushed).
  assert (Hg1 : groups st1 !! g = Some grp)
    by (rewrite Hgr1; now apply lookup_app_l_Some).
  assert (Hgm1 : slice_elems (arrays st1) (g_middleware grp) = Some gm)
    by (apply Hframe1; [exact Hgm | right; lia]).
  assert (HMs1 : slice_elems (arrays st1) ms' = Some Ms')
    by (now apply Hframe1).
  assert (Hdiff : s_ptr (g_middleware grp) <> s_ptr s1).
  { rewrite Hptr1. eapply readable_not_fresh; [exact Hgm|lia]. }
  exists st1, child.
  split; [exact Hrun1|]. split; [exact Hc1|]. split; [exact Hg1|].
  split; [exact Hs1|]. split.
  - destruct (Group_Use_spec growslice (length (groups st)) child ms' Ms' (gm ++ Ms)
                st1 Hc1 HMs1 Hs1)
      as (st2 & s2 & Hrun2 & Hgr2 & Hs2 & _ & _ & _ & _ & Hframe2).
    exists st2, (group_with s2 child).
    split; [exact Hrun2|].
    split; [rewrite Hgr2; eapply lookup_inserted, Hc1|].
    split; [exact Hs2|].
    split; [rewrite Hgr2, list_lookup_insert_ne by lia; exact Hg1|].
    apply Hframe2; [exact Hgm1 | left; exact Hdiff].
  - destruct (Group_Use_spec growslice g grp ms' Ms' gm st1 Hg1 HMs1 Hgm1)
      as (st2 & s2 & Hrun2 & Hgr2 & Hs2 & _ & _ & _ & _ & Hframe2).
    exists st2, (group_with s2 grp).
    split; [exact Hrun2|].
    split; [rewrite Hgr2; eapply lookup_inserted, Hg1|].
    split; [exact Hs2|].
    split; [rewrite Hgr2, list_lookup_insert_ne by lia; exact Hc1|].
    apply Hframe2; [exact Hs1 | left; simpl; congruence].
Qed.

Lemma full_parent_isolates_child_witness :
  groups groupState !! 0 = Some apiGroup /\
  slice_elems (arrays groupState) (g_middleware apiGroup) = Some [probe "a1"] /\
  slice_elems (arrays groupState) (SliceAt 1 1 2) = Some [probe "r1"] /\
  slice_elems (arrays groupState) (SliceAt 1 2 2) = Some [probe "r1"; probe "r2"] /\
  clear_of (g_middleware apiGroup) (SliceAt 1 2 2) /\
  s_cap (g_middleware apiGroup)
    < s_len (g_middleware apiGroup) + length [probe "r1"] /\
  exists st1 child,
    Group_Group doubling 0 "/a" (SliceAt 1 1 2) groupState = Some (1, st1) /\
    groups st1 !! 1 = Some child /\
    groups st1 !! 0 = Some apiGroup /\
    slice_elems (arrays st1) (g_middleware child)
      = Some ([probe "a1"] ++ [probe "r1"]) /\
    (exists st2 child2,
       Group_Use doubling 1 (SliceAt 1 2 2) st1 = Some (tt, st2) /\
       groups st2 !! 1 = Some child2 /\
       slice_elems (arrays st2) (g_middleware child2)
         = Some (([probe "a1"] ++ [probe "r1"]) ++ [probe "r1"; probe "r2"]) /\
       groups st2 !! 0 = Some apiGroup /\
       slice_elems (arrays st2) (g_middleware apiGroup) = Some [probe "a1"]) /\
    (exists st2 parent2,
       Group_Use doubling 0 (SliceAt 1 2 2) st1 = Some (tt, st2) /\
       groups st2 !! 0 = Some parent2 /\
       slice_elems (arrays st2) (g_middleware parent2)
         = Some ([probe "a1"] ++ [probe "r1"; probe "r2"]) /\
       groups st2 !! 1 = Some child /\
       slice_elems (arrays st2) (g_middleware child)
         = Some ([probe "a1"] ++ [probe "r1"])).
Proof.
  repeat (split; [reflexivity|]).
  split; [left; discriminate|]. split; [simpl; lia|].
  apply (full_parent_isolates_child doubling 0 apiGroup "/a"
           (SliceAt 1 1 2) (SliceAt 1 2 2)
           [probe "r1"] [probe "r1"; probe "r2"] [probe "a1"] groupState);
    try reflexivity; [left; discriminate | simpl; lia].
Defined.

(** X16. A route registered through a group holds a copy: a later [Use]
    on any group, the registering one included, leaves the route in the
    matcher with the middleware sequence it was registered with. *)
Theorem registered_route_survives_Use (growslice : nat -> nat -> nat)
    (name : string) (reg : nat -> string -> Handler -> Slice -> M unit)
    (app g g2 : nat) (grp grp2 : Group) (path : string) (h : Handler)
    (ms ms' : Slice) (Ms Ms' gm gm2 : list MiddlewareFunc) (st : State) :
  (name, reg) ∈ Group_verbs growslice ->
  ready st app ->
  groups st !! g = Some grp -> g_app grp = Some app ->
  slice_elems (arrays st) ms = Some Ms ->
  slice_elems (arrays st) (g_middleware grp) = Some gm ->
  groups st !! g2 = Some grp2 ->
  slice_elems (arrays st) (g_middleware grp2) = Some gm2 ->
  slice_elems (arrays st) ms' = Some Ms' ->
  exists st1 st2 a2 mux2 all,
    reg g path h ms st = Some (tt, st1) /\
    Group_Use growslice g2 ms' st1 = Some (tt, st2) /\
    apps st2 !! app = Some a2 /\ app_mux a2 = Some mux2 /\
    mux2 !! (name +:+ " " +:+ (g_prefix grp +:+ path))
      = Some {| rt_app := app; rt_handler := h; rt_middleware := all |} /\
    slice_elems (arrays st1) all = Some (gm ++ Ms) /\
    slice_elems (arrays st2) all = Some (gm ++ Ms).
Proof.
  intros Hreg Hready Hg Happ HMs Hgm Hg2 Hgm2 HMs'.
  rewrite (Group_verb_run _ _ _ _ _ _ _ Hreg).
  destruct (Group_addRoute_ready growslice g grp app name path h ms Ms gm st
              Hready Hg Happ HMs Hgm)
    as (st1 & a1 & mux1 & all & Hrun & _ & Ha1 & Hmux1 & Hkey & Hall & Hptr
        & Hgr & _ & _ & Hframe).
  assert (Hg2' : groups st1 !! g2 = Some grp2) by (rewrite Hgr; exact Hg2).
  destruct (Group_Use_spec growslice g2 grp2 ms' Ms' gm2 st1 Hg2'
              (Hframe _ _ HMs') (Hframe _ _ Hgm2))
    as (st2 & s2 & Hrun2 & _ & _ & _ & _ & Hap2 & _ & Hframe2).
  exists st1, st2, a1, mux1, all.
  split; [exact Hrun|]. split; [exact Hrun2|].
  split; [rewrite Hap2; exact Ha1|]. split; [exact Hmux1|].
  split; [exact Hkey|]. split; [exact Hall|].
  apply Hframe2; [exact Hall|].
  left. rewrite Hptr. intros Heq. symmetry in Heq. revert Heq.
  eapply readable_not_fresh; [exact Hgm2 | lia].
Qed.

Lemma registered_route_survives_Use_witness :
  ("GET", Group_Get doubling) ∈ Group_verbs doubling /\
  ready groupState 0 /\
  groups groupState !! 0 = Some apiGroup /\
  g_app apiGroup = Some 0 /\
  slice_elems (arrays groupState) (SliceAt 1 1 2) = Some [probe "r1"] /\
  slice_elems (arrays groupState) (g_middleware apiGroup) = Some [probe "a1"] /\
  slice_elems (arrays groupState) (SliceAt 1 2 2) = Some [probe "r1"; probe "r2"] /\
  exists st1 st2 a2 mux2 all,
    Group_Get doubling 0 "/r" (say "H" None) (SliceAt 1 1 2) groupState
      = Some (tt, st1) /\
    Group_Use doubling 0 (SliceAt 1 2 2) st1 = Some (tt, st2) /\
    apps st2 !! 0 = Some a2 /\ app_mux a2 = Some mux2 /\
    mux2 !! ("GET" +:+ " " +:+ ("/api" +:+ "/r"))
      = Some {| rt_app := 0; rt_handler := say "H" None; rt_middleware := all |} /\
    slice_elems (arrays st1) all = Some ([probe "a1"] ++ [probe "r1"]) /\
    slice_elems (arrays st2) all = Some ([probe "a1"] ++ [probe "r1"]).
Proof.
  split; [unfold Group_verbs; set_solver|].
  split; [apply groupState_ready|].
  repeat (split; [reflexivity|]).
  apply (registered_route_survives_Use doubling "GET" (Group_Get doubling) 0 0 0
           apiGroup apiGroup "/r" (say "H" None) (SliceAt 1 1 2) (SliceAt 1 2 2)
           [probe "r1"] [probe "r1"; probe "r2"] [probe "a1"] [probe "a1"]
           groupState);
    try reflexivity;
    [unfold Group_verbs; set_solver | apply groupState_ready].
Defined.

(** X17. Middleware added to a group with [Use] reaches the routes the
    group registers afterwards: such a route is filed under the group's
    prefix followed by the path, with the group's earlier sequence, then
    the middleware added by [Use], then the call's own. *)
Theorem Group_Use_then_register (growslice : nat -> nat -> nat)
    (name : string) (reg : nat -> string -> Handler -> Slice -> M unit)
    (app g : nat) (grp : Group) (a : App) (mux : gmap string Route)
    (path : string) (h : Handler) (ms' ms2 : Slice)
    (Ms' Ms2 gm : list MiddlewareFunc) (st : State) :
  (name, reg) ∈ Group_verbs growslice ->
  groups st !! g = Some grp -> g_app grp = Some app ->
  apps st !! app = Some a -> app_mux a = Some mux ->
  slice_elems (arrays st) (g_middleware grp) = Some gm ->
  slice_elems (arrays st) ms' = Some Ms' ->
  slice_elems (arrays st) ms2 = Some Ms2 ->
  clear_of (g_middleware grp) ms2 ->
  exists st1 st2 a2 mux2 all,
    Group_Use growslice g ms' st = Some (tt, st1) /\
    reg g path h ms2 st1 = Some (tt, st2) /\
    apps st2 !! app = Some a2 /\ app_mux a2 = Some mux2 /\
    mux2 !! (name +:+ " " +:+ (g_prefix grp +:+ path))
      = Some {| rt_app := app; rt_handler := h; rt_middleware := all |} /\
    slice_elems (arrays st2) all = Some (gm ++ Ms' ++ Ms2).
Proof.
  intros Hreg Hg Happ Ha Hmux Hgm HMs' HMs2 Hclear.
  rewrite (Group_verb_run _ _ _ _ _ _ _ Hreg).
  destruct (Group_Use_spec growslice g grp ms' Ms' gm st Hg HMs' Hgm)
    as (st1 & s1 & Hrun1 & Hgr1 & Hs1 & _ & _ & Hap1 & _ & Hframe1).
  assert (Hg1 : groups st1 !! g = Some (group_with s1 grp))
    by (rewrite Hgr1; eapply lookup_inserted, Hg).
  assert (Ha1 : apps st1 !! app = Some a) by (rewrite Hap1; exact Ha).
  destruct (Group_addRoute_spec growslice g (group_with s1 grp) app a mux name path
              h ms2 Ms2 (gm ++ Ms') st1 Hg1 Happ Ha1 Hmux
              (Hframe1 _ _ HMs2 Hclear) Hs1)
    as (st2 & all & Hrun2 & Hap2 & _ & Hall & _).
  exists st1, st2. eexists _, _, all.
  split; [exact Hrun1|]. split; [exact Hrun2|].
  split; [rewrite Hap2; eapply lookup_inserted, Ha1|].
  split; [reflexivity|]. split; [apply lookup_insert_eq|].
  now rewrite <- app_assoc in Hall.
Qed.

Lemma Group_Use_then_register_witness :
  ("HEAD", Group_Head doubling) ∈ Group_verbs doubling /\
  groups groupState !! 0 = Some apiGroup /\
  g_app apiGroup = Some 0 /\
  apps groupState !! 0 = Some (demoApp None) /\
  app_mux (demoApp None) = Some {[ "GET /x" := demoRoute None ]} /\
  slice_elems (arrays groupState) (g_middleware apiGroup) = Some [probe "a1"] /\
  slice_elems (arrays groupState) (SliceAt 1 1 2) = Some [probe "r1"] /\
  slice_elems (arrays groupState) (SliceAt 1 2 2) = Some [probe "r1"; probe "r2"] /\
  clear_of (g_middleware apiGroup) (SliceAt 1 2 2) /\
  exists st1 st2 a2 mux2 all,
    Group_Use doubling 0 (SliceAt 1 1 2) groupState = Some (tt, st1) /\
    Group_Head doubling 0 "/r" (say "H" None) (SliceAt 1 2 2) st1 = Some (tt, st2) /\
    apps st2 !! 0 = Some a2 /\ app_mux a2 = Some mux2 /\
    mux2 !! ("HEAD" +:+ " " +:+ ("/api" +:+ "/r"))
      = Some {| rt_app := 0; rt_handler := say "H" None; rt_middleware := all |} /\
    slice_elems (arrays st2) all
      = Some ([probe "a1"] ++ [probe "r1"] ++ [probe "r1"; probe "r2"]).
Proof.
  split; [unfold Group_verbs; set_solver|].
  repeat (split; [reflexivity|]).
  split; [left; discriminate|].
  apply (Group_Use_then_register doubling "HEAD" (Group_Head doubling) 0 0
           apiGroup (demoApp None) {[ "GET /x" := demoRoute None ]}
           "/r" (say "H" None) (SliceAt 1 1 2) (SliceAt 1 2 2)
           [probe "r1"] [probe "r1"; probe "r2"] [probe "a1"] groupState);
    try reflexivity; [unfold Group_verbs; set_solver | left; discriminate].
Defined.

(** ** What a shared array lets through *)

Lemma slice_elems_same_view h s t :
  s_ptr s = s_ptr t -> s_len s = s_len t -> slice_elems h s = slice_elems h t.
Proof.
  destruct s as [|p n c], t as [|q m d]; simpl; try discriminate; try reflexivity.
  now intros [= ->] ->.
Qed.

(** X18. When the parent's slice has room for one more element, the group
    derived with one middleware keeps it in the parent's array, and a
    [Use] of one middleware on the parent afterwards writes over it: the
    child then shows the parent's middleware in the place of its own. *)
Theorem Use_on_parent_overwrites_child (growslice : nat -> nat -> nat) (g : nat)
    (grp : Group) (prefix : string) (ms ms' : Slice)
    (m m' : MiddlewareFunc) (gm : list MiddlewareFunc) (st : State) :
  groups st !! g = Some grp ->
  slice_elems (arrays st) (g_middleware grp) = Some gm ->
  slice_elems (arrays st) ms = Some [m] ->
  slice_elems (arrays st) ms' = Some [m'] ->
  clear_of (g_middleware grp) ms' ->
  s_len (g_middleware grp) + 1 <= s_cap (g_middleware grp) ->
  exists st1 st2 child,
    Group_Group growslice g prefix ms st = Some (length (groups st), st1) /\
    groups st1 !! length (groups st) = Some child /\
    slice_elems (arrays st1) (g_middleware child) = Some (gm ++ [m]) /\
    Group_Use growslice g ms' st1 = Some (tt, st2) /\
    groups st2 !! length (groups st) = Some child /\
    slice_elems (arrays st2) (g_middleware child) = Some (gm ++ [m']).
Proof.
  intros Hg Hgm HMs HMs' Hclear Hroom.
  destruct (Group_Group_full growslice g grp prefix ms [m] gm st Hg HMs Hgm)
    as (st1 & s1 & Hrun1 & Hgr1 & Hs1 & Hptr1 & _ & _ & _ & Hframe1).
  assert (Hfit : (s_len (g_middleware grp) + 1 <=? s_cap (g_middleware grp)) = true)
    by (apply Nat.leb_le; exact Hroom).
  simpl length in Hptr1. rewrite Hfit in Hptr1.
  set (child := {| g_app := g_app grp; g_prefix := g_prefix grp +:+ prefix;
                   g_middleware := s1 |}) in *.
  pose proof (lookup_lt_Some _ _ _ Hg) as Hlt.
  assert (Hc1 : groups st1 !! length (groups st) = Some child)
    by (rewrite Hgr1; apply lookup_pushed).
  assert (Hg1 : groups st1 !! g = Some grp)
    by (rewrite Hgr1; now apply lookup_app_l_Some).
  assert (Hgm1 : slice_elems (arrays st1) (g_middleware grp) = Some gm)
    by (apply Hframe1; [exact Hgm | right; lia]).
  destruct (Group_Use_spec growslice g grp ms' [m'] gm st1 Hg1
              (Hframe1 _ _ HMs' Hclear) Hgm1)
    as (st2 & s2 & Hrun2 & Hgr2 & Hs2 & Hptr2 & _).
  simpl length in Hptr2. rewrite Hfit in Hptr2.
  exists st1, st2, child.
  split; [exact Hrun1|]. split; [exact Hc1|]. split; [exact Hs1|].
  split; [exact Hrun2|].
  split; [rewrite Hgr2, list_lookup_insert_ne by lia; exact Hc1|].
  simpl. rewrite <- Hs2. apply slice_elems_same_view; [congruence|].
  pose proof (slice_elems_length _ _ _ Hs1) as H1.
  pose proof (slice_elems_length _ _ _ Hs2) as H2.
  rewrite length_app in H1, H2. simpl in H1, H2. lia.
Qed.

Lemma Use_on_parent_overwrites_child_witness :
  groups (with_groups [{| g_app := Some 0; g_prefix := "/api";
                          g_middleware := SliceAt 2 1 2 |}] groupState) !! 0
    = Some {| g_app := Some 0; g_prefix := "/api"; g_middleware := SliceAt 2 1 2 |} /\
  slice_elems (arrays groupState) (SliceAt 2 1 2) = Some [probe "a1"] /\
  slice_elems (arrays groupState) (SliceAt 1 1 2) = Some [probe "r1"] /\
  slice_elems (arrays groupState) (SliceAt 0 1 2) = Some [probe "g1"] /\
  clear_of (SliceAt 2 1 2) (SliceAt 0 1 2) /\
  s_len (SliceAt 2 1 2) + 1 <= s_cap (SliceAt 2 1 2) /\
  exists st1 st2 child,
    Group_Group doubling 0 "/a" (SliceAt 1 1 2)
      (with_groups [{| g_app := Some 0; g_prefix := "/api";
                       g_middleware := SliceAt 2 1 2 |}] groupState)
      = Some (1, st1) /\
    groups st1 !! 1 = Some child /\
    slice_elems (arrays st1) (g_middleware child)
      = Some ([probe "a1"] ++ [probe "r1"]) /\
    Group_Use doubling 0 (SliceAt 0 1 2) st1 = Some (tt, st2) /\
    groups st2 !! 1 = Some child /\
    slice_elems (arrays st2) (g_middleware child)
      = Some ([probe "a1"] ++ [probe "g1"]).
Proof.
  repeat (split; [reflexivity|]).
  split; [left; discriminate|]. split; [simpl; lia|].
  apply (Use_on_parent_overwrites_child doubling 0
           {| g_app := Some 0; g_prefix := "/api"; g_middleware := SliceAt 2 1 2 |}
           "/a" (SliceAt 1 1 2) (SliceAt 0 1 2) (probe "r1") (probe "g1")
           [probe "a1"]
           (with_groups [{| g_app := Some 0; g_prefix := "/api";
                            g_middleware := SliceAt 2 1 2 |}] groupState));
    try reflexivity; try (left; discriminate); simpl; lia.
Defined.

(** ** An application that [New] did not build *)

(** X19. On an application without a matcher (the zero value of [App])
    every verb method panics, so no route can ever be installed on it,
    while [ServeHTTP] does not panic: the sink of any request receives the
    fixed not-found response, status 404, and nothing else changes.
    Routes can only be registered on what [New] returns. *)
Theorem registration_needs_matcher (name : string)
    (reg : nat -> string -> Handler -> Slice -> M unit)
    (app : nat) (a : App) (path : string) (h : Handler) (ms : Slice)
    (w : nat) (r : option Request) (st : State) :
  (name, reg) ∈ App_verbs ->
  apps st !! app = Some a -> app_mux a = None ->
  reg app path h ms st = None /\
  exists st',
    ServeHTTP app (Some w) r st = Some (tt, st') /\
    sinks (env st') =
      <[w := received (env st) w ++
             [ HeaderDel "Content-Length";
               HeaderSet "Content-Type" "text/plain; charset=utf-8";
               HeaderSet "X-Content-Type-Options" "nosniff";
               WriteHeader 404;
               Write ("404 page not found" +:+ newline) ]]> (sinks (env st)) /\
    stdlog (env st') = stdlog (env st) /\
    events (env st') = events (env st) /\
    arrays st' = arrays st /\ ctxs st' = ctxs st /\
    groups st' = groups st /\ apps st' = apps st.
Proof.
  intros Hreg Ha Hmux. split.
  - rewrite (App_verb_run _ _ _ _ _ _ Hreg).
    unfold App_addRoute, load_app.
    rewrite (bind_run _ _ _ _ _ (load_run apps app a st Ha)).
    now rewrite Hmux.
  - unfold ServeHTTP, load_app.
    rewrite (bind_run _ _ _ _ _ (load_run apps app a st Ha)).
    rewrite Hmux.
    eexists. split; [reflexivity|]. simpl. repeat split; reflexivity.
Qed.

Lemma registration_needs_matcher_witness :
  ("GET", App_Get) ∈ App_verbs /\
  apps bareState !! 0 = Some bareApp /\ app_mux bareApp = None /\
  App_Get 0 "/x" (say "H" None) nilSlice bareState = None /\
  exists st',
    ServeHTTP 0 (Some 5) (GET "/x") bareState = Some (tt, st') /\
    sinks (env st') =
      <[5 := received (env bareState) 5 ++
             [ HeaderDel "Content-Length";
               HeaderSet "Content-Type" "text/plain; charset=utf-8";
               HeaderSet "X-Content-Type-Options" "nosniff";
               WriteHeader 404;
               Write ("404 page not found" +:+ newline) ]]> (sinks (env bareState)) /\
    stdlog (env st') = stdlog (env bareState) /\
    events (env st') = events (env bareState) /\
    arrays st' = arrays bareState /\ ctxs st' = ctxs bareState /\
    groups st' = groups bareState /\ apps st' = apps bareState.
Proof.
  split; [unfold App_verbs; set_solver|].
  split; [reflexivity|]. split; [reflexivity|].
  apply (registration_needs_matcher "GET" App_Get 0 bareApp "/x" (say "H" None)
           nilSlice 5 (GET "/x") bareState);
    [unfold App_verbs; set_solver | reflexivity | reflexivity].
Defined.

